(** * Constant-product rebalancing in pymaker: Mooniswap and Uniswap v2 market makers

    Shallow embedding of [MarketMaker._get_amounts] and [MarketMaker.set_price]
    of [pymaker/mooniswap.py] and [pymaker/uniswap_v2.py], together with the
    Python arithmetic they run on: unbounded integers, binary64 floats
    ([int / int], [float - int], [math.sqrt], [str(float)]) and the 18-digit
    fixed-point type [Wad]; and of the contract calls [UniswapRouter] builds
    for swaps and liquidity. *)

From Stdlib Require Import ZArith Lia Bool List.
From Stdlib Require String.
From stdpp Require Import base option gmap.

Local Open Scope Z_scope.

(** ** Python exceptions and results *)

Inductive exn : Set :=
| ZeroDivisionError
| OverflowError
| ValueError
| KeyError
| IndexError.

Inductive result (A : Type) : Type :=
| Return (a : A)
| Raise (e : exn).

Arguments Return {A} a.
Arguments Raise {A} e.

Definition bind {A B : Type} (r : result A) (k : A -> result B) : result B :=
  match r with
  | Return a => k a
  | Raise e => Raise e
  end.

Notation "'let!' x ':=' r 'in' k" := (bind r (fun x => k))
  (at level 10, x name, r at level 100, k at level 200).

(** ** Python floats

    A Python float is an IEEE 754 binary64.  Every finite binary64 is an
    integer multiple of [2^-1074] (the smallest subnormal), so a finite float
    [x] is represented by the integer [x * 2^1074]: order, sign and
    subtraction of floats are order, sign and subtraction of these
    integers, and only rounding to 53 significant bits has to be written
    out.  Infinities and NaN are not values here: each operation below that
    would produce one in Python raises instead ([OverflowError],
    [ZeroDivisionError], [ValueError]), as the Python operations used by the
    market makers do. *)

Module PyFloat.

Definition float : Set := Z.

(** [2^1074]: the representation of [1.0]. *)
Definition one : Z := 2 ^ 1074.

(** First magnitude that no longer rounds to a finite binary64: [2^1024]. *)
Definition huge : Z := 2 ^ 2098.

(** The integer nearest to [n / d] (for [0 <= n], [0 < d]), ties to even. *)
Definition round_half_even (n d : Z) : Z :=
  let q := n / d in
  match 2 * (n mod d) ?= d with
  | Lt => q
  | Gt => q + 1
  | Eq => if Z.even q then q else q + 1
  end.

(** Number of low bits that do not fit a 53-bit significand. *)
Definition shift53 (q : Z) : Z := Z.max 0 (Z.log2 q - 52).

(** The multiple of [2^-1074] with at most 53 significant bits nearest to
    [n / d] (in units of [2^-1074]), ties to even: round-to-nearest-even,
    subnormals included. *)
Definition round53 (n d : Z) : Z :=
  let s := shift53 (n / d) in
  round_half_even n (d * 2 ^ s) * 2 ^ s.

(** The significand chosen by [round53]. *)
Definition significand (n d : Z) : Z :=
  round_half_even n (d * 2 ^ shift53 (n / d)).

(** Values a binary64 holds: at most 53 significant bits. *)
Definition representable (x : Z) : Prop :=
  exists m s, 0 <= m < 2 ^ 53 /\ 0 <= s /\ x = m * 2 ^ s.

(** Rounding is symmetric in the sign. *)
Definition rnd (n d : Z) : Z :=
  if n <? 0 then - round53 (- n) d else round53 n d.

(** The float nearest to the rational [n / d], for [0 < d]. *)
Definition of_ratio (n d : Z) : result float :=
  let x := rnd (n * one) d in
  if huge <=? Z.abs x then Raise OverflowError else Return x.

(** [n / d] on Python integers: true division, correctly rounded. *)
Definition truediv (n d : Z) : result float :=
  if d =? 0 then Raise ZeroDivisionError
  else if d <? 0 then of_ratio (- n) (- d)
  else of_ratio n d.

(** [float(n)] for an integer small enough to be exact. *)
Definition of_int (n : Z) : float := n * one.

(** [x - y] on floats; the operands used here keep the result finite. *)
Definition sub (x y : float) : float := rnd (x - y) 1.

Definition abs (x : float) : float := Z.abs x.

(** Comparison of a float with a Python integer is exact. *)
Definition gt_int (x : float) (n : Z) : bool := n * one <? x.
Definition lt_int (x : float) (n : Z) : bool := x <? n * one.

(** The 53-bit value nearest to the real square root of [N] (ties, which
    no binary64 argument produces, to even). *)
Definition sqrt_round (N : Z) : Z :=
  let r := Z.sqrt N in
  let s := shift53 r in
  let t := r / 2 ^ s in
  let t' := match 4 * N ?= (2 * t + 1) ^ 2 * 4 ^ s with
            | Lt => t
            | Gt => t + 1
            | Eq => if Z.even t then t else t + 1
            end in
  t' * 2 ^ s.

(** [math.sqrt]: correctly rounded; a negative argument is a domain error. *)
Definition sqrt (x : float) : result float :=
  if x <? 0 then Raise ValueError else Return (sqrt_round (x * one)).

(** *** [str(float)]: the shortest decimal that reads back as the float *)

(** The decimal [d * 10^p] as a fraction. *)
Definition dec_ratio (d p : Z) : Z * Z :=
  if 0 <=? p then (d * 10 ^ p, 1) else (d, 10 ^ (- p)).

(** [float(str)] of the decimal [d * 10^p] is [x]. *)
Definition reads_as (d p : Z) (x : float) : bool :=
  let '(n, k) := dec_ratio d p in rnd (n * one) k =? x.

(** [x / 10^p] as a fraction, for a positive float [x]. *)
Definition scaled (x : float) (p : Z) : Z * Z :=
  if 0 <=? p then (x, one * 10 ^ p) else (x * 10 ^ (- p), one).

(** Try decimals whose last digit has weight [10^p], from few digits to
    many: the neighbours [lo * 10^p <= x < (lo + 1) * 10^p] are the only
    candidates at that length; when both read back, the nearer one wins. *)
Fixpoint shortest (fuel : nat) (x : float) (p : Z) : option (Z * Z) :=
  match fuel with
  | O => None
  | S fuel' =>
      let '(n, k) := scaled x p in
      let lo := n / k in
      let hi := lo + 1 in
      match reads_as lo p x, reads_as hi p x with
      | true, true => Some (round_half_even n k, p)
      | true, false => Some (lo, p)
      | false, true => Some (hi, p)
      | false, false => shortest fuel' x (p - 1)
      end
  end.

(** A decimal exponent [p] with [x < 10^p], from the binary one. *)
Definition start_exp (x : float) : Z :=
  (Z.log2 x - 1073) * 30103 / 100000 + 2.

(** [repr] of a positive float as digits and exponent: the shortest
    decimal that reads back, and the exact expansion [x * 5^1074 * 10^-1074]
    should none of at most 17 digits do so (one always does). *)
Definition repr (x : float) : Z * Z :=
  match shortest 40 x (start_exp x) with
  | Some dp => dp
  | None => (x * 5 ^ 1074, -1074)
  end.

End PyFloat.

(** ** Wad: 18-digit fixed point

    Modelled from the spec: the class [Wad] ([pymaker.numeric], imported by
    both market makers) is not among the sources.  The spec's data model gives
    it as an integer scaled by [10^18] whose multiplication and division keep
    the scale and truncate toward zero; [float(w)] is then the integer over
    [10^18] in Python's true division, and [Wad.from_number(x)] the decimal
    [str(x)] times [10^18], truncated. *)

Module Wad.

Definition Wad : Set := Z.

Definition WAD : Z := 10 ^ 18.

Definition add (a b : Wad) : Wad := a + b.
Definition sub (a b : Wad) : Wad := a - b.
Definition abs (a : Wad) : Wad := Z.abs a.
Definition gt (a b : Wad) : bool := b <? a.

Definition mul (a b : Wad) : Wad := Z.quot (a * b) WAD.

Definition truediv (a b : Wad) : result Wad :=
  if b =? 0 then Raise ZeroDivisionError else Return (Z.quot (a * WAD) b).

(** [float(w)], which [math.sqrt(w)] calls. *)
Definition to_float (w : Wad) : result PyFloat.float :=
  PyFloat.truediv w WAD.

(** The decimal [d * 10^p] times [10^18], truncated. *)
Definition scale_down (d p : Z) : Z :=
  let '(n, k) := PyFloat.dec_ratio d p in n * WAD / k.

(** [Wad.from_number(x)] for a float [x]. *)
Definition from_number (x : PyFloat.float) : Wad :=
  match x with
  | 0 => 0
  | Zpos _ => let '(d, p) := PyFloat.repr x in scale_down d p
  | Zneg _ => let '(d, p) := PyFloat.repr (- x) in - scale_down d p
  end.

(** [Wad.from_number(sqrt(w))], the one way both market makers take a
    square root. *)
Definition sqrt (w : Wad) : result Wad :=
  let! x := to_float w in
  let! y := PyFloat.sqrt x in
  Return (from_number y).

End Wad.

(** ** Addresses and dictionaries *)

Definition Address : Set := N.

Definition zero_address : Address := 0%N.

(** [d[k]] on a Python dictionary. *)
Definition getitem (d : gmap N Z) (k : Address) : result Z :=
  match d !! k with
  | Some v => Return v
  | None => Raise KeyError
  end.

(** The dictionary display [{k1: v1, k2: v2}]: the later key wins. *)
Definition dict2 (k1 : Address) (v1 : Z) (k2 : Address) (v2 : Z) : gmap N Z :=
  <[k2 := v2]> (<[k1 := v1]> ∅).

(** ** pymaker/mooniswap.py *)

Module Mooniswap.

(** What the pool contract answers: its two tokens, their balances
    ([getBalanceForRemoval]) and the quote [getReturn]. *)
Record Contract : Type := {
  token0 : Address;
  token1 : Address;
  balance0 : Z;
  balance1 : Z;
  getReturn : Address -> Address -> Z -> Z
}.

(** [Mooniswap.reserves.map()]. *)
Definition reserves_map (c : Contract) : gmap N Z :=
  dict2 (token0 c) (balance0 c) (token1 c) (balance1 c).

(** The transaction [Mooniswap.swap] builds: the arguments of the
    contract's [swap], and the ether sent along when the source is the
    native asset. *)
Record Transact : Set := {
  src : Address;
  dst : Address;
  amount : Z;
  min_return : Z;
  referral : Address;
  value : option Z
}.

Definition get_return (c : Contract) (s d : Address) (a : Z) : Z :=
  getReturn c s d a.

Definition swap (s d : Address) (a m : Z) (r : option Address) : Transact :=
  let r' := match r with None => zero_address | Some x => x end in
  if N.eqb s zero_address
  then {| src := s; dst := d; amount := a; min_return := m;
          referral := r'; value := Some a |}
  else {| src := s; dst := d; amount := a; min_return := m;
          referral := r'; value := None |}.

(** The [AttrDict] returned by [_get_amounts]; [map] is the dictionary
    its lambda builds. *)
Record Amounts : Type := {
  first_token_amount_delta : Z;
  second_token_amount_delta : Z;
  map : gmap N Z
}.

(** The dictionary [new_reserved] of [_get_amounts]. *)
Definition new_reserved (market_price : Z) (first_token second_token : Address)
    (reserved : gmap N Z) : result (gmap N Z) :=
  let! r1 := getitem reserved first_token in
  let! r2 := getitem reserved second_token in
  let liquidity_pool_constant := Wad.mul r1 r2 in
  let! n1 := Wad.sqrt (Wad.mul liquidity_pool_constant market_price) in
  let! q := Wad.truediv liquidity_pool_constant market_price in
  let! n2 := Wad.sqrt q in
  Return (dict2 first_token n1 second_token n2).

Definition _get_amounts (market_price : Z) (first_token second_token : Address)
    (reserved : gmap N Z) : result Amounts :=
  let! new := new_reserved market_price first_token second_token reserved in
  let! n1 := getitem new first_token in
  let! r1 := getitem reserved first_token in
  if Wad.gt n1 r1 then
    let! n1 := getitem new first_token in
    let! r1 := getitem reserved first_token in
    let first_token_delta_amount := Wad.sub n1 r1 in
    let! r2 := getitem reserved second_token in
    let! n2 := getitem new second_token in
    let second_token_delta_amount := Wad.sub r2 n2 in
    Return {| first_token_amount_delta := first_token_delta_amount;
              second_token_amount_delta := second_token_delta_amount;
              map := dict2 first_token first_token_delta_amount
                           second_token second_token_delta_amount |}
  else
    let! r1 := getitem reserved first_token in
    let! n1 := getitem new first_token in
    let first_token_delta_amount := Wad.sub r1 n1 in
    let! n2 := getitem new second_token in
    let! r2 := getitem reserved second_token in
    let second_token_delta_amount := Wad.sub n2 r2 in
    Return {| first_token_amount_delta := first_token_delta_amount;
              second_token_amount_delta := second_token_delta_amount;
              map := dict2 first_token first_token_delta_amount
                           second_token second_token_delta_amount |}.

(** [delta] of [set_price]: [(market_price.value * 100 / price.value) - 100],
    a float. *)
Definition price_delta (market_price price : Z) : result PyFloat.float :=
  let! q := PyFloat.truediv (market_price * 100) price in
  Return (PyFloat.sub q (PyFloat.of_int 100)).

(** [MarketMaker.set_price]; [None] is the value of the branch that only
    logs. *)
Definition set_price (c : Contract) (market_price : Z)
    (first_token second_token : Address) (max_delta_on_percent : Z)
    : result (option Transact) :=
  let reserves := reserves_map c in
  let! r1 := getitem reserves first_token in
  let! r2 := getitem reserves second_token in
  let! mooniswap_price := Wad.truediv r1 r2 in
  let! delta := price_delta market_price mooniswap_price in
  if PyFloat.gt_int delta max_delta_on_percent then
    let! input_data :=
      _get_amounts market_price first_token second_token reserves in
    let! a := getitem (map input_data) first_token in
    let min_amount := get_return c first_token second_token a in
    let! a := getitem (map input_data) first_token in
    Return (Some (swap first_token second_token a min_amount None))
  else if (delta <? 0) && PyFloat.gt_int (PyFloat.abs delta) max_delta_on_percent
  then
    let! input_data :=
      _get_amounts market_price first_token second_token reserves in
    let! a := getitem (map input_data) second_token in
    let min_amount := get_return c second_token first_token a in
    let! a := getitem (map input_data) second_token in
    Return (Some (swap second_token first_token a min_amount None))
  else Return None.

End Mooniswap.

(** ** pymaker/uniswap_v2.py *)

Module UniswapV2.

(** What the router and the pair behind it answer: the pair's tokens and
    reserves ([getReserves]) and the router's quotes. *)
Record Contract : Type := {
  token0 : Address;
  token1 : Address;
  reserve0 : Z;
  reserve1 : Z;
  account_address : Address;
  getAmountsOut : Z -> list Address -> list Z;
  getAmountsIn : Z -> list Address -> list Z
}.

(** [UniswapPair.reserves.map()]. *)
Definition reserves_map (c : Contract) : gmap N Z :=
  dict2 (token0 c) (reserve0 c) (token1 c) (reserve1 c).

(** The router method a swap transaction calls. *)
Inductive Method : Set :=
| swapExactTokensForTokens
| swapExactETHForTokens
| swapExactTokensForETH
| swapTokensForExactTokens
| swapTokensForExactETH
| swapETHForExactTokens.

(** A swap transaction: for the [swapExact...] methods [exact] is the
    amount paid in and [bound] the least amount accepted out; for the
    [...ForExact...] methods [exact] is the amount taken out and [bound]
    the most paid in.  (The deadline, [time.time() + 1000], is left out.) *)
Record Transact : Set := {
  method : Method;
  exact : Z;
  bound : Z;
  path : list Address;
  recipient : Address
}.

(** [a[0]] and [a[-1]] on a list. *)
Definition first_item (a : list Z) : result Z :=
  match a with
  | [] => Raise IndexError
  | x :: _ => Return x
  end.

Definition last_item (a : list Z) : result Z :=
  match a with
  | [] => Raise IndexError
  | x :: l => Return (List.last l x)
  end.

Definition swap_from_exact_amount (c : Contract) (amount_in min_amount_out : Z)
    (first last : Address) : Transact :=
  let m := if N.eqb first zero_address then swapExactETHForTokens
           else if N.eqb last zero_address then swapExactTokensForETH
           else swapExactTokensForTokens in
  {| method := m; exact := amount_in; bound := min_amount_out;
     path := [first; last]; recipient := account_address c |}.

Definition swap_to_exact_amount (c : Contract) (max_amount_in amount_out : Z)
    (first last : Address) : Transact :=
  let m := if N.eqb first zero_address then swapETHForExactTokens
           else if N.eqb last zero_address then swapTokensForExactETH
           else swapTokensForExactTokens in
  {| method := m; exact := amount_out; bound := max_amount_in;
     path := [first; last]; recipient := account_address c |}.

(** The [AttrDict] returned by [_get_amounts]. *)
Record Amounts : Set := {
  exact_value : Z;
  limit : Z
}.

Definition _get_amounts (market_price first_token_liquidity_pool_amount
    second_token_liquidity_pool_amount : Z) : result Amounts :=
  let liquidity_pool_constant :=
    Wad.mul first_token_liquidity_pool_amount
            second_token_liquidity_pool_amount in
  let! x := Wad.to_float (Wad.mul liquidity_pool_constant market_price) in
  let! new_first_token_liquidity_pool_amount := PyFloat.sqrt x in
  let! q := Wad.truediv liquidity_pool_constant market_price in
  let! y := Wad.to_float q in
  let! new_second_token_liquidity_pool_amount := PyFloat.sqrt y in
  Return {|
    exact_value :=
      Wad.sub first_token_liquidity_pool_amount
              (Wad.from_number new_first_token_liquidity_pool_amount);
    limit :=
      Wad.sub (Wad.from_number new_second_token_liquidity_pool_amount)
              second_token_liquidity_pool_amount |}.

Definition price_delta (market_price price : Z) : result PyFloat.float :=
  let! q := PyFloat.truediv (market_price * 100) price in
  Return (PyFloat.sub q (PyFloat.of_int 100)).

(** [MarketMaker.set_price]; [None] is the value of the branch that only
    prints. *)
Definition set_price (c : Contract) (market_price : Z)
    (first_token second_token : Address) (max_delta_on_percent : Z)
    : result (option Transact) :=
  let reserves := reserves_map c in
  let! r1 := getitem reserves first_token in
  let! r2 := getitem reserves second_token in
  let! uniswap_price := Wad.truediv r1 r2 in
  let! delta := price_delta market_price uniswap_price in
  if PyFloat.gt_int delta max_delta_on_percent then
    let! r1 := getitem reserves first_token in
    let! r2 := getitem reserves second_token in
    let! input_data := _get_amounts market_price r1 r2 in
    let a := getAmountsOut c (Wad.abs (exact_value input_data))
               [first_token; second_token] in
    let! out := last_item a in
    Return (Some (swap_from_exact_amount c (Wad.abs (exact_value input_data))
                    out first_token second_token))
  else if (delta <? 0) && PyFloat.gt_int (PyFloat.abs delta) max_delta_on_percent
  then
    let! r1 := getitem reserves first_token in
    let! r2 := getitem reserves second_token in
    let! input_data := _get_amounts market_price r1 r2 in
    let a := getAmountsIn c (Wad.abs (exact_value input_data))
               [second_token; first_token] in
    let! inp := first_item a in
    Return (Some (swap_to_exact_amount c inp (Wad.abs (exact_value input_data))
                    second_token first_token))
  else Return None.

End UniswapV2.

(** ** Contract calls

    What [Transact] is given: the name of the contract function, its
    parameters, and the ['value'] of the extra dictionary when there is
    one.  A parameter is an integer (an amount's [.value], a deadline), an
    address's [.address], a list of either, or, where the source hands
    over the object itself, a [Wad] or an [Address]. *)

Import String.StringSyntax.
Delimit Scope string_scope with string.

Inductive Param : Set :=
| PInt (z : Z)
| PAddr (a : Address)
| PInts (l : list Z)
| PAddrs (l : list Address)
| PWadObject (w : Z)
| PAddressObject (a : Address).

Record Call : Set := {
  function_name : String.string;
  parameters : list Param;
  extra_value : option Z
}.

(** [[address.address for address in path]]. *)
Definition addresses (path : list Address) : Param :=
  PAddrs path.

(** ** pymaker/uniswap_v2.py: class UniswapRouter

    [account] is the router's [account_address] and [now] the clock
    [int(time.time())] read by [_deadline]. *)

Module UniswapRouter.

Section Router.

Context (account : Address) (now : Z).

Definition _deadline : Z := now + 1000.

(** The float literal [0.5]. *)
Definition half : PyFloat.float := PyFloat.one / 2.

Definition add_liquidity (first_token second_token : Address)
    (first_token_amount second_token_amount : Z) : Call :=
  let first_token_min_amount :=
    Wad.mul (Wad.from_number half) first_token_amount in
  let second_token_min_amount :=
    Wad.mul (Wad.from_number half) second_token_amount in
  if N.eqb first_token zero_address then
    {| function_name := "addLiquidityETH"%string;
       parameters := [PAddr second_token; PInt second_token_amount;
                      PInt second_token_min_amount;
                      PInt first_token_min_amount;
                      PAddr account; PInt _deadline];
       extra_value := Some first_token_amount |}
  else if N.eqb second_token zero_address then
    {| function_name := "addLiquidityETH"%string;
       parameters := [PAddr first_token; PInt first_token_amount;
                      PInt first_token_min_amount;
                      PInt second_token_min_amount;
                      PAddr account; PInt _deadline];
       extra_value := Some second_token_amount |}
  else
    {| function_name := "addLiquidity"%string;
       parameters := [PAddr first_token; PAddr second_token;
                      PInt first_token_amount; PInt second_token_amount;
                      PInt first_token_min_amount;
                      PInt second_token_min_amount;
                      PAddr account; PInt _deadline];
       extra_value := None |}.

Definition remove_liquidity (first_token second_token : Address) (amount : Z)
    : Call :=
  let first_token_min_amount := Wad.mul (Wad.from_number half) amount in
  let second_token_min_amount := Wad.mul (Wad.from_number half) amount in
  if N.eqb first_token zero_address then
    {| function_name := "removeLiquidityETH"%string;
       parameters := [PAddressObject second_token; PWadObject amount;
                      PInt second_token_min_amount;
                      PInt first_token_min_amount;
                      PAddressObject account; PInt _deadline];
       extra_value := None |}
  else if N.eqb second_token zero_address then
    {| function_name := "removeLiquidityETH"%string;
       parameters := [PAddressObject first_token; PWadObject amount;
                      PInt first_token_min_amount;
                      PInt second_token_min_amount;
                      PAddressObject account; PInt _deadline];
       extra_value := None |}
  else
    {| function_name := "removeLiquidity"%string;
       parameters := [PAddressObject first_token; PAddressObject second_token;
                      PWadObject amount;
                      PInt first_token_min_amount;
                      PInt second_token_min_amount;
                      PAddressObject account; PInt _deadline];
       extra_value := None |}.

Definition __swap_exact_tokens_for_tokens (amount_in min_amount_out : Z)
    (path : list Address) : Call :=
  {| function_name := "swapExactTokensForTokens"%string;
     parameters := [PInt amount_in; PInt min_amount_out; addresses path;
                    PAddr account; PInt _deadline];
     extra_value := None |}.

Definition __swap_exact_eth_for_tokens (amount_in min_amount_out : Z)
    (path : list Address) : Call :=
  {| function_name := "swapExactETHForTokens"%string;
     parameters := [PInt min_amount_out; addresses path;
                    PAddr account; PInt _deadline];
     extra_value := Some amount_in |}.

Definition __swap_exact_tokens_for_eth (amount_in min_amount_out : Z)
    (path : list Address) : Call :=
  {| function_name := "swapExactTokensForETH"%string;
     parameters := [PInt amount_in; PInt min_amount_out; addresses path;
                    PAddr account; PInt _deadline];
     extra_value := None |}.

Definition __swap_tokens_for_exact_tokens (amount_out max_amount_in : Z)
    (path : list Address) : Call :=
  {| function_name := "swapTokensForExactTokens"%string;
     parameters := [PInt amount_out; PInt max_amount_in; addresses path;
                    PAddr account; PInt _deadline];
     extra_value := None |}.

Definition __swap_tokens_for_exact_eth (amount_out max_amount_in : Z)
    (path : list Address) : Call :=
  {| function_name := "swapTokensForExactETH"%string;
     parameters := [PInt amount_out; PInt max_amount_in; addresses path;
                    PAddr account; PInt _deadline];
     extra_value := None |}.

Definition __swap_eth_for_exact_tokens (amount_out max_amount_in : Z)
    (path : list Address) : Call :=
  {| function_name := "swapETHForExactTokens"%string;
     parameters := [PInt amount_out; addresses path;
                    PAddr account; PInt _deadline];
     extra_value := Some max_amount_in |}.

(** [None] is the [AssertionError] of [assert len(path) >= 2]; past it
    [path[0]] and [path[-1]] exist. *)
Definition swap_from_exact_amount (amount_in min_amount_out : Z)
    (path : list Address) : option Call :=
  match path with
  | first :: _ :: _ =>
      if N.eqb first zero_address then
        Some (__swap_exact_eth_for_tokens amount_in min_amount_out path)
      else if N.eqb (List.last path first) zero_address then
        Some (__swap_exact_tokens_for_eth amount_in min_amount_out path)
      else
        Some (__swap_exact_tokens_for_tokens amount_in min_amount_out path)
  | _ => None
  end.

Definition swap_to_exact_amount (max_amount_in amount_out : Z)
    (path : list Address) : option Call :=
  match path with
  | first :: _ :: _ =>
      if N.eqb first zero_address then
        Some (__swap_eth_for_exact_tokens amount_out max_amount_in path)
      else if N.eqb (List.last path first) zero_address then
        Some (__swap_tokens_for_exact_eth amount_out max_amount_in path)
      else
        Some (__swap_tokens_for_exact_tokens amount_out max_amount_in path)
  | _ => None
  end.

End Router.


End UniswapRouter.

(** ** The square root at full precision

    The spec's words for the square root it asks for: the integer square
    root of the unscaled product, rescaled to the [10^18] representation.
    For a [Wad] [w], that is the integer square root of [w * 10^18]. *)
Definition exact_sqrt (w : Z) : Z := Z.sqrt (w * Wad.WAD).

(** ** Pools of the statements

    The two pools of the statements below: tokens [t0] (token A) and [t1]
    (token B) with reserves [a] and [b], and whatever quote functions the
    contracts implement. *)
Abbreviation moon_pool t0 t1 a b gr :=
  {| Mooniswap.token0 := t0; Mooniswap.token1 := t1;
     Mooniswap.balance0 := a; Mooniswap.balance1 := b;
     Mooniswap.getReturn := gr |}.

Abbreviation uni_pool t0 t1 a b acct gao gai :=
  {| UniswapV2.token0 := t0; UniswapV2.token1 := t1;
     UniswapV2.reserve0 := a; UniswapV2.reserve1 := b;
     UniswapV2.account_address := acct;
     UniswapV2.getAmountsOut := gao; UniswapV2.getAmountsIn := gai |}.

(** * Facts about the arithmetic *)

Module PyFloatFacts.
Import PyFloat.

Lemma one_pos : 0 < one.
Proof. unfold one. apply Z.pow_pos_nonneg; lia. Qed.

Lemma huge_one : huge = 2 ^ 1024 * one.
Proof. unfold huge, one. rewrite <- Z.pow_add_r by lia. reflexivity. Qed.

Lemma one_eq : one = 2 ^ 1074.
Proof. reflexivity. Qed.

#[global] Opaque one huge.

(** *** Rounding to the nearest integer *)

Lemma round_half_even_bounds (n d : Z) :
  0 < d -> n / d <= round_half_even n d <= n / d + 1.
Proof.
  intros Hd. unfold round_half_even.
  destruct (2 * (n mod d) ?= d); try lia.
  destruct (Z.even (n / d)); lia.
Qed.

Lemma round_half_even_exact (q d : Z) :
  0 < d -> round_half_even (q * d) d = q.
Proof.
  intros Hd. unfold round_half_even.
  rewrite Z.mod_mul, Z.div_mul by lia.
  change (2 * 0) with 0.
  destruct (Z.compare_spec 0 d); lia.
Qed.

Lemma div_le_cross (n1 d1 n2 d2 : Z) :
  0 < d1 -> 0 < d2 -> n1 * d2 <= n2 * d1 -> n1 / d1 <= n2 / d2.
Proof.
  intros H1 H2 H.
  apply Z.div_le_lower_bound; [lia|].
  pose proof (Z.mul_div_le n1 d1 H1).
  pose proof (Z.mod_pos_bound n1 d1 H1).
  pose proof (Z.div_mod n1 d1 ltac:(lia)).
  assert (d1 * (d2 * (n1 / d1)) <= d1 * n2) by nia.
  nia.
Qed.

(** Rounding to nearest is monotone on fractions. *)
Lemma round_half_even_mono (n1 d1 n2 d2 : Z) :
  0 < d1 -> 0 < d2 -> n1 * d2 <= n2 * d1 ->
  round_half_even n1 d1 <= round_half_even n2 d2.
Proof.
  intros H1 H2 H.
  pose proof (div_le_cross _ _ _ _ H1 H2 H) as Hq.
  pose proof (round_half_even_bounds n1 d1 H1) as B1.
  pose proof (round_half_even_bounds n2 d2 H2) as B2.
  destruct (Z.eq_dec (n1 / d1) (n2 / d2)) as [E|NE]; [|lia].
  pose proof (Z.div_mod n1 d1 ltac:(lia)) as E1.
  pose proof (Z.div_mod n2 d2 ltac:(lia)) as E2.
  pose proof (Z.mod_pos_bound n1 d1 H1) as M1.
  pose proof (Z.mod_pos_bound n2 d2 H2) as M2.
  assert (Hr : (n1 mod d1) * d2 <= (n2 mod d2) * d1).
  { rewrite E1, E2 in H at 1. rewrite E in H. nia. }
  unfold round_half_even in *. rewrite <- E.
  destruct (Z.compare_spec (2 * (n1 mod d1)) d1) as [C1|C1|C1];
  destruct (Z.compare_spec (2 * (n2 mod d2)) d2) as [C2|C2|C2];
    try destruct (Z.even (n1 / d1)); try lia; exfalso; nia.
Qed.

Lemma round_half_even_le (n d T : Z) :
  0 < d -> n <= T * d -> round_half_even n d <= T.
Proof.
  intros Hd H. rewrite <- (round_half_even_exact T 1) by lia.
  apply round_half_even_mono; lia.
Qed.

Lemma round_half_even_ge (n d T : Z) :
  0 < d -> T * d <= n -> T <= round_half_even n d.
Proof.
  intros Hd H. rewrite <- (round_half_even_exact T 1) at 1 by lia.
  apply round_half_even_mono; lia.
Qed.

(** *** The 53-bit window *)

Lemma shift53_nonneg (q : Z) : 0 <= shift53 q.
Proof. unfold shift53. lia. Qed.

Lemma shift53_mono (q1 q2 : Z) : q1 <= q2 -> shift53 q1 <= shift53 q2.
Proof.
  intros H. unfold shift53. pose proof (Z.log2_le_mono _ _ H). lia.
Qed.

Lemma shift53_upper (q : Z) : 0 <= q -> q / 2 ^ shift53 q < 2 ^ 53.
Proof.
  intros Hq. pose proof (shift53_nonneg q) as Hs.
  assert (0 < 2 ^ shift53 q) by (apply Z.pow_pos_nonneg; lia).
  apply Z.div_lt_upper_bound; [assumption|].
  rewrite <- Z.pow_add_r by lia.
  destruct (Z.eq_dec q 0) as [->|Hne].
  - apply Z.pow_pos_nonneg; lia.
  - pose proof (Z.log2_spec q ltac:(lia)) as [_ Hu].
    eapply Z.lt_le_trans; [exact Hu|].
    apply Z.pow_le_mono_r; [lia|]. unfold shift53. lia.
Qed.

Lemma shift53_lower (q : Z) : 0 < shift53 q -> 2 ^ 52 <= q / 2 ^ shift53 q.
Proof.
  intros Hs.
  assert (Hq : 0 < q).
  { destruct (Z.lt_ge_cases 0 q) as [|Hle]; [assumption|].
    unfold shift53 in Hs. rewrite (Z.log2_nonpos q) in Hs by lia. lia. }
  assert (0 < 2 ^ shift53 q) by (apply Z.pow_pos_nonneg; lia).
  apply Z.div_le_lower_bound; [assumption|].
  rewrite <- Z.pow_add_r by lia.
  pose proof (Z.log2_spec q Hq) as [Hl _].
  eapply Z.le_trans; [|exact Hl].
  apply Z.pow_le_mono_r; [lia|]. unfold shift53 in *. lia.
Qed.

Lemma round53_significand (n d : Z) :
  round53 n d = significand n d * 2 ^ shift53 (n / d).
Proof. reflexivity. Qed.

Lemma significand_floor (n d : Z) :
  0 < d -> n / (d * 2 ^ shift53 (n / d)) = n / d / 2 ^ shift53 (n / d).
Proof.
  intros Hd. pose proof (shift53_nonneg (n / d)).
  rewrite Z.div_div; [reflexivity|lia|apply Z.pow_pos_nonneg; lia].
Qed.

Lemma significand_upper (n d : Z) :
  0 <= n -> 0 < d -> significand n d <= 2 ^ 53.
Proof.
  intros Hn Hd. unfold significand.
  pose proof (shift53_nonneg (n / d)).
  assert (0 < 2 ^ shift53 (n / d)) by (apply Z.pow_pos_nonneg; lia).
  assert (0 < d * 2 ^ shift53 (n / d)) by nia.
  pose proof (round_half_even_bounds n _ H1) as [_ B].
  rewrite significand_floor in B by assumption.
  pose proof (shift53_upper (n / d) (Z.div_pos _ _ Hn Hd)). lia.
Qed.

Lemma significand_lower (n d : Z) :
  0 < d -> 0 < shift53 (n / d) -> 2 ^ 52 <= significand n d.
Proof.
  intros Hd Hs. unfold significand.
  assert (0 < 2 ^ shift53 (n / d)) by (apply Z.pow_pos_nonneg; lia).
  assert (0 < d * 2 ^ shift53 (n / d)) by nia.
  pose proof (round_half_even_bounds n _ H0) as [B _].
  rewrite significand_floor in B by assumption.
  pose proof (shift53_lower (n / d) Hs). lia.
Qed.

Lemma significand_nonneg (n d : Z) :
  0 <= n -> 0 < d -> 0 <= significand n d.
Proof.
  intros Hn Hd. unfold significand.
  pose proof (shift53_nonneg (n / d)).
  assert (0 < 2 ^ shift53 (n / d)) by (apply Z.pow_pos_nonneg; lia).
  assert (0 < d * 2 ^ shift53 (n / d)) by nia.
  pose proof (round_half_even_bounds n _ H1) as [B _].
  pose proof (Z.div_pos n _ Hn H1). lia.
Qed.

Lemma round53_nonneg (n d : Z) : 0 <= n -> 0 < d -> 0 <= round53 n d.
Proof.
  intros Hn Hd. rewrite round53_significand.
  pose proof (significand_nonneg n d Hn Hd).
  pose proof (shift53_nonneg (n / d)).
  assert (0 < 2 ^ shift53 (n / d)) by (apply Z.pow_pos_nonneg; lia). nia.
Qed.

(** Rounding to 53 bits is monotone on non-negative fractions. *)
Lemma round53_mono (n1 d1 n2 d2 : Z) :
  0 <= n1 -> 0 < d1 -> 0 < d2 -> n1 * d2 <= n2 * d1 ->
  round53 n1 d1 <= round53 n2 d2.
Proof.
  intros Hn1 Hd1 Hd2 H.
  assert (Hn2 : 0 <= n2) by nia.
  pose proof (div_le_cross _ _ _ _ Hd1 Hd2 H) as Hq.
  pose proof (shift53_mono _ _ Hq) as Hs.
  pose proof (shift53_nonneg (n1 / d1)) as Hs1.
  rewrite !round53_significand.
  set (s1 := shift53 (n1 / d1)) in *. set (s2 := shift53 (n2 / d2)) in *.
  assert (P1 : 0 < 2 ^ s1) by (apply Z.pow_pos_nonneg; lia).
  assert (P2 : 0 < 2 ^ s2) by (apply Z.pow_pos_nonneg; lia).
  destruct (Z.eq_dec s1 s2) as [E|NE].
  - assert (significand n1 d1 <= significand n2 d2).
    { unfold significand. fold s1 s2. rewrite <- E.
      apply round_half_even_mono; nia. }
    rewrite <- E. nia.
  - assert (Hlt : s1 < s2) by lia.
    pose proof (significand_upper n1 d1 Hn1 Hd1) as U.
    pose proof (significand_lower n2 d2 Hd2 ltac:(fold s2; lia)) as L.
    assert (2 ^ 53 * 2 ^ s1 <= 2 ^ 52 * 2 ^ s2).
    { rewrite <- !Z.pow_add_r by lia. apply Z.pow_le_mono_r; lia. }
    assert (0 < 2 ^ 52) by (apply Z.pow_pos_nonneg; lia).
    assert (0 < 2 ^ 53) by (apply Z.pow_pos_nonneg; lia).
    nia.
Qed.

Lemma round53_representable (x d : Z) :
  representable x -> 0 < d -> round53 (x * d) d = x.
Proof.
  intros (m & s & Hm & Hs & ->) Hd.
  rewrite round53_significand. unfold significand.
  rewrite Z.div_mul by lia.
  set (k := shift53 (m * 2 ^ s)).
  assert (Hk : 0 <= k) by apply shift53_nonneg.
  assert (Ps : 0 < 2 ^ s) by (apply Z.pow_pos_nonneg; lia).
  assert (Hks : k <= s).
  { unfold k, shift53.
    destruct (Z.eq_dec m 0) as [->|Hm0]; [simpl; lia|].
    rewrite Z.log2_mul_pow2 by lia.
    assert (Z.log2 m < 53) by (apply Z.log2_lt_pow2; lia). lia. }
  assert (E : m * 2 ^ s = m * 2 ^ (s - k) * 2 ^ k).
  { rewrite <- Z.mul_assoc, <- Z.pow_add_r by lia. do 2 f_equal. lia. }
  assert (Pk : 0 < 2 ^ k) by (apply Z.pow_pos_nonneg; lia).
  rewrite E at 1.
  replace (m * 2 ^ (s - k) * 2 ^ k * d) with (m * 2 ^ (s - k) * (d * 2 ^ k)) by ring.
  rewrite round_half_even_exact by nia. lia.
Qed.

Lemma representable_int (n : Z) : 0 <= n <= 2 ^ 53 -> representable (n * one).
Proof.
  intros Hn. destruct (Z.eq_dec n (2 ^ 53)) as [->|Hne].
  - exists (2 ^ 52), 1075. split; [|split]; [| lia |].
    + split; [apply Z.pow_nonneg; lia | apply Z.pow_lt_mono_r; lia].
    + rewrite one_eq, <- !Z.pow_add_r by lia. reflexivity.
  - exists n, 1074. rewrite one_eq. repeat split; lia.
Qed.

(** *** Signed rounding *)

Lemma rnd_nonneg (n d : Z) : 0 <= n -> rnd n d = round53 n d.
Proof. intros H. unfold rnd. destruct (Z.ltb_spec n 0); [lia|reflexivity]. Qed.

Lemma rnd_neg (n d : Z) : n < 0 -> rnd n d = - round53 (- n) d.
Proof. intros H. unfold rnd. destruct (Z.ltb_spec n 0); [reflexivity|lia]. Qed.

Lemma rnd_mono (n1 d1 n2 d2 : Z) :
  0 < d1 -> 0 < d2 -> n1 * d2 <= n2 * d1 -> rnd n1 d1 <= rnd n2 d2.
Proof.
  intros Hd1 Hd2 H.
  destruct (Z.lt_ge_cases n1 0) as [N1|N1]; destruct (Z.lt_ge_cases n2 0) as [N2|N2].
  - rewrite !rnd_neg by assumption.
    pose proof (round53_mono (- n2) d2 (- n1) d1 ltac:(lia) Hd2 Hd1 ltac:(lia)). lia.
  - rewrite rnd_neg, rnd_nonneg by lia.
    pose proof (round53_nonneg (- n1) d1 ltac:(lia) Hd1).
    pose proof (round53_nonneg n2 d2 ltac:(lia) Hd2). lia.
  - exfalso. nia.
  - rewrite !rnd_nonneg by lia. apply round53_mono; assumption.
Qed.

Lemma rnd_representable (x d : Z) :
  representable x -> 0 < d -> rnd (x * d) d = x.
Proof.
  intros Hx Hd. pose proof Hx as (m & s & Hm & Hs & E).
  assert (0 <= x).
  { subst x. assert (0 < 2 ^ s) by (apply Z.pow_pos_nonneg; lia). nia. }
  rewrite rnd_nonneg by nia. apply round53_representable; assumption.
Qed.

Lemma representable_0 : representable 0.
Proof.
  exists 0, 0. split; [|lia]. split; [lia|apply Z.pow_pos_nonneg; lia].
Qed.

Lemma rnd_0 (d : Z) : 0 < d -> rnd 0 d = 0.
Proof. intros Hd. apply (rnd_representable 0 d representable_0 Hd). Qed.

Lemma rnd_opp (n d : Z) : 0 < d -> rnd (- n) d = - rnd n d.
Proof.
  intros Hd. destruct (Z.lt_trichotomy n 0) as [H|[->|H]].
  - rewrite (rnd_neg n), rnd_nonneg by lia. lia.
  - change (- 0) with 0. rewrite rnd_0 by assumption. reflexivity.
  - rewrite (rnd_nonneg n), rnd_neg by lia. rewrite Z.opp_involutive. reflexivity.
Qed.

(** Thresholds a binary64 holds exactly are never crossed by rounding. *)
Lemma rnd_le (n d T : Z) :
  representable T -> 0 < d -> n <= T * d -> rnd n d <= T.
Proof.
  intros HT Hd H. rewrite <- (rnd_representable T 1 HT) by lia.
  apply rnd_mono; lia.
Qed.

Lemma rnd_ge (n d T : Z) :
  representable T -> 0 < d -> T * d <= n -> T <= rnd n d.
Proof.
  intros HT Hd H. rewrite <- (rnd_representable T 1 HT) at 1 by lia.
  apply rnd_mono; lia.
Qed.

Lemma rnd_ge_opp (n d T : Z) :
  representable T -> 0 < d -> - T * d <= n -> - T <= rnd n d.
Proof.
  intros HT Hd H.
  pose proof (rnd_le (- n) d T HT Hd ltac:(lia)) as L.
  rewrite rnd_opp in L by assumption. lia.
Qed.

End PyFloatFacts.

Module DictFacts.

Lemma getitem_dict2_second (k1 k2 : Address) (v1 v2 : Z) :
  getitem (dict2 k1 v1 k2 v2) k2 = Return v2.
Proof. unfold getitem, dict2. rewrite lookup_insert_eq. reflexivity. Qed.

Lemma getitem_dict2_first (k1 k2 : Address) (v1 v2 : Z) :
  k1 <> k2 -> getitem (dict2 k1 v1 k2 v2) k1 = Return v1.
Proof.
  intros H. unfold getitem, dict2.
  rewrite lookup_insert_ne by congruence. rewrite lookup_insert_eq. reflexivity.
Qed.

End DictFacts.

Module WadFacts.
Import PyFloat PyFloatFacts.

Lemma WAD_pos : 0 < Wad.WAD.
Proof. reflexivity. Qed.

Lemma WAD_eq : Wad.WAD = 10 ^ 18.
Proof. reflexivity. Qed.

#[global] Opaque Wad.WAD.

Lemma mul_nonneg (a b : Z) : 0 <= a -> 0 <= b -> 0 <= Wad.mul a b.
Proof.
  intros Ha Hb. unfold Wad.mul. pose proof WAD_pos.
  rewrite Z.quot_div_nonneg by nia. apply Z.div_pos; nia.
Qed.

Lemma mul_le (a b : Z) : 0 <= a -> 0 <= b -> Wad.mul a b <= a * b.
Proof.
  intros Ha Hb. unfold Wad.mul. pose proof WAD_pos.
  rewrite Z.quot_div_nonneg by nia.
  apply Z.div_le_upper_bound; [lia|]. nia.
Qed.

Lemma mul_mono_r (a b1 b2 : Z) :
  0 <= a -> 0 <= b1 <= b2 -> Wad.mul a b1 <= Wad.mul a b2.
Proof.
  intros Ha Hb. unfold Wad.mul. pose proof WAD_pos.
  rewrite !Z.quot_div_nonneg by nia. apply Z.div_le_mono; nia.
Qed.

Lemma truediv_pos (a b : Z) :
  0 <= a -> 0 < b -> Wad.truediv a b = Return (a * Wad.WAD / b).
Proof.
  intros Ha Hb. unfold Wad.truediv. pose proof WAD_pos.
  destruct (Z.eqb_spec b 0); [lia|].
  rewrite Z.quot_div_nonneg by nia. reflexivity.
Qed.

Lemma truediv_zero (a : Z) : Wad.truediv a 0 = Raise ZeroDivisionError.
Proof. reflexivity. Qed.

(** [int / int] neither overflows nor fails below [2^1000]. *)
Lemma of_ratio_small (n d : Z) :
  0 <= n -> 0 < d -> n <= 2 ^ 1000 * d ->
  of_ratio n d = Return (rnd (n * one) d) /\ 0 <= rnd (n * one) d.
Proof.
  intros Hn Hd H. unfold of_ratio. pose proof one_pos as Ho.
  assert (R : representable (2 ^ 1000 * one)).
  { exists 1, 2074. split; [|split]; [split; [lia|apply Z.pow_lt_mono_r with (b := 0); lia] | lia |].
    rewrite one_eq, <- Z.pow_add_r by lia. reflexivity. }
  pose proof (rnd_le (n * one) d _ R Hd ltac:(nia)) as U.
  assert (L : 0 <= rnd (n * one) d).
  { rewrite rnd_nonneg by nia. apply round53_nonneg; nia. }
  assert (2 ^ 1000 * one < huge).
  { rewrite huge_one. apply Z.mul_lt_mono_pos_r; [assumption|].
    apply Z.pow_lt_mono_r; lia. }
  destruct (Z.leb_spec huge (Z.abs (rnd (n * one) d))); [lia|]. split; [reflexivity|assumption].
Qed.

Lemma sqrt_small (w : Z) :
  0 <= w -> w <= 2 ^ 1000 ->
  Wad.sqrt w =
    Return (Wad.from_number (sqrt_round (rnd (w * one) Wad.WAD * one))).
Proof.
  intros Hw Hu. unfold Wad.sqrt, Wad.to_float, truediv. pose proof WAD_pos as HW.
  destruct (Z.eqb_spec Wad.WAD 0); [lia|].
  destruct (Z.ltb_spec Wad.WAD 0); [lia|].
  assert (2 ^ 1000 * 1 <= 2 ^ 1000 * Wad.WAD).
  { apply Z.mul_le_mono_nonneg_l; [apply Z.pow_nonneg|]; lia. }
  destruct (of_ratio_small w Wad.WAD Hw HW ltac:(lia)) as [-> L].
  cbn [bind]. unfold sqrt.
  destruct (Z.ltb_spec (rnd (w * one) Wad.WAD) 0); [lia|]. reflexivity.
Qed.

(** Within the 256-bit range of on-chain amounts the derivation returns. *)
Lemma targets_total (a b mp : Z) :
  0 < a < 2 ^ 256 -> 0 < b < 2 ^ 256 -> 0 < mp < 2 ^ 256 ->
  exists n1 n2,
    Wad.sqrt (Wad.mul (Wad.mul a b) mp) = Return n1 /\
    Wad.truediv (Wad.mul a b) mp = Return (Wad.mul a b * Wad.WAD / mp) /\
    Wad.sqrt (Wad.mul a b * Wad.WAD / mp) = Return n2.
Proof.
  intros Ha Hb Hmp. pose proof WAD_pos as HW.
  pose proof (mul_nonneg a b ltac:(lia) ltac:(lia)) as K0.
  pose proof (mul_le a b ltac:(lia) ltac:(lia)) as K1.
  assert (P256 : 2 ^ 256 * 2 ^ 256 = 2 ^ 512) by (rewrite <- Z.pow_add_r by lia; reflexivity).
  assert (K2 : Wad.mul a b <= 2 ^ 512) by nia.
  pose proof (mul_nonneg _ mp K0 ltac:(lia)) as M0.
  pose proof (mul_le _ mp K0 ltac:(lia)) as M1.
  assert (P768 : 2 ^ 512 * 2 ^ 256 = 2 ^ 768) by (rewrite <- Z.pow_add_r by lia; reflexivity).
  assert (M2 : Wad.mul (Wad.mul a b) mp <= 2 ^ 1000).
  { assert (2 ^ 768 <= 2 ^ 1000) by (apply Z.pow_le_mono_r; lia).
    assert (0 < 2 ^ 256) by (apply Z.pow_pos_nonneg; lia). nia. }
  assert (Q0 : 0 <= Wad.mul a b * Wad.WAD / mp) by (apply Z.div_pos; nia).
  assert (Q1 : Wad.mul a b * Wad.WAD / mp <= 2 ^ 1000).
  { apply Z.div_le_upper_bound; [lia|].
    assert (Wad.WAD <= 2 ^ 488).
    { rewrite WAD_eq. apply Z.le_trans with (m := 2 ^ 60).
      - apply Z.leb_le. vm_compute. reflexivity.
      - apply Z.pow_le_mono_r; lia. }
    assert (2 ^ 512 * 2 ^ 488 = 2 ^ 1000) by (rewrite <- Z.pow_add_r by lia; reflexivity).
    assert (0 < 2 ^ 1000) by (apply Z.pow_pos_nonneg; lia).
    nia. }
  eexists _, _. split; [apply sqrt_small; assumption|].
  split; [apply truediv_pos; lia|]. apply sqrt_small; assumption.
Qed.

End WadFacts.

(** * The market makers, step by step *)

Module MooniswapFacts.
Import Mooniswap DictFacts WadFacts.

Section Pool.

Context (t0 t1 : Address) (Hdistinct : t0 <> t1) (a b : Z).

Lemma moon_new_reserved_eq (mp : Z) :
  new_reserved mp t0 t1 (dict2 t0 a t1 b) =
    let! n1 := Wad.sqrt (Wad.mul (Wad.mul a b) mp) in
    let! q := Wad.truediv (Wad.mul a b) mp in
    let! n2 := Wad.sqrt q in
    Return (dict2 t0 n1 t1 n2).
Proof.
  unfold new_reserved.
  rewrite getitem_dict2_first, getitem_dict2_second by assumption.
  reflexivity.
Qed.

Lemma moon_get_amounts_eq (mp : Z) :
  _get_amounts mp t0 t1 (dict2 t0 a t1 b) =
    let! n1 := Wad.sqrt (Wad.mul (Wad.mul a b) mp) in
    let! q := Wad.truediv (Wad.mul a b) mp in
    let! n2 := Wad.sqrt q in
    Return (if Wad.gt n1 a
            then {| first_token_amount_delta := Wad.sub n1 a;
                    second_token_amount_delta := Wad.sub b n2;
                    map := dict2 t0 (Wad.sub n1 a) t1 (Wad.sub b n2) |}
            else {| first_token_amount_delta := Wad.sub a n1;
                    second_token_amount_delta := Wad.sub n2 b;
                    map := dict2 t0 (Wad.sub a n1) t1 (Wad.sub n2 b) |}).
Proof.
  unfold _get_amounts. rewrite moon_new_reserved_eq.
  destruct (Wad.sqrt (Wad.mul (Wad.mul a b) mp)) as [n1|]; [|reflexivity].
  cbn [bind].
  destruct (Wad.truediv (Wad.mul a b) mp) as [q|]; [|reflexivity].
  cbn [bind].
  destruct (Wad.sqrt q) as [n2|]; [|reflexivity].
  cbn [bind].
  rewrite !getitem_dict2_first, !getitem_dict2_second by assumption.
  cbn [bind].
  destruct (Wad.gt n1 a); cbn [bind];
    rewrite ?getitem_dict2_first, ?getitem_dict2_second by assumption;
    reflexivity.
Qed.

Lemma moon_get_amounts_map (mp : Z) (r : Amounts) :
  _get_amounts mp t0 t1 (dict2 t0 a t1 b) = Return r ->
  getitem (map r) t0 = Return (first_token_amount_delta r) /\
  getitem (map r) t1 = Return (second_token_amount_delta r).
Proof.
  rewrite moon_get_amounts_eq.
  destruct (Wad.sqrt (Wad.mul (Wad.mul a b) mp)) as [n1|]; [|discriminate].
  cbn [bind].
  destruct (Wad.truediv (Wad.mul a b) mp) as [q|]; [|discriminate].
  cbn [bind].
  destruct (Wad.sqrt q) as [n2|]; [|discriminate].
  cbn [bind]. intros [= <-].
  destruct (Wad.gt n1 a); cbn [map first_token_amount_delta second_token_amount_delta];
    rewrite getitem_dict2_first, getitem_dict2_second by assumption; auto.
Qed.

End Pool.

Section SetPrice.

Context (c : Contract) (Hdistinct : token0 c <> token1 c).

Lemma moon_set_price_eq (mp tol : Z) :
  set_price c mp (token0 c) (token1 c) tol =
    let! price := Wad.truediv (balance0 c) (balance1 c) in
    let! delta := price_delta mp price in
    if PyFloat.gt_int delta tol then
      let! r := _get_amounts mp (token0 c) (token1 c) (reserves_map c) in
      let x := first_token_amount_delta r in
      Return (Some (swap (token0 c) (token1 c) x
                      (get_return c (token0 c) (token1 c) x) None))
    else if (delta <? 0) && PyFloat.gt_int (PyFloat.abs delta) tol then
      let! r := _get_amounts mp (token0 c) (token1 c) (reserves_map c) in
      let x := second_token_amount_delta r in
      Return (Some (swap (token1 c) (token0 c) x
                      (get_return c (token1 c) (token0 c) x) None))
    else Return None.
Proof.
  unfold set_price, reserves_map.
  rewrite getitem_dict2_first, getitem_dict2_second by assumption.
  cbn [bind].
  destruct (Wad.truediv (balance0 c) (balance1 c)) as [price|]; [|reflexivity].
  cbn [bind].
  destruct (price_delta mp price) as [delta|]; [|reflexivity].
  cbn [bind].
  destruct (PyFloat.gt_int delta tol).
  - destruct (_get_amounts mp (token0 c) (token1 c) _) as [r|] eqn:E; [|reflexivity].
    cbn [bind]. destruct (moon_get_amounts_map _ _ Hdistinct _ _ _ _ E) as [-> _].
    reflexivity.
  - destruct ((delta <? 0) && PyFloat.gt_int (PyFloat.abs delta) tol); [|reflexivity].
    destruct (_get_amounts mp (token0 c) (token1 c) _) as [r|] eqn:E; [|reflexivity].
    cbn [bind]. destruct (moon_get_amounts_map _ _ Hdistinct _ _ _ _ E) as [_ ->].
    reflexivity.
Qed.

End SetPrice.

End MooniswapFacts.

Module UniswapFacts.
Import UniswapV2 DictFacts WadFacts.

Lemma uni_get_amounts_eq (mp a b : Z) :
  _get_amounts mp a b =
    let! n1 := Wad.sqrt (Wad.mul (Wad.mul a b) mp) in
    let! q := Wad.truediv (Wad.mul a b) mp in
    let! n2 := Wad.sqrt q in
    Return {| exact_value := Wad.sub a n1; limit := Wad.sub n2 b |}.
Proof.
  unfold _get_amounts, Wad.sqrt.
  destruct (Wad.to_float (Wad.mul (Wad.mul a b) mp)) as [x|]; [|reflexivity].
  cbn [bind].
  destruct (PyFloat.sqrt x) as [y|]; [|reflexivity].
  cbn [bind].
  destruct (Wad.truediv (Wad.mul a b) mp) as [q|]; [|reflexivity].
  cbn [bind].
  destruct (Wad.to_float q) as [x'|]; [|reflexivity].
  cbn [bind].
  destruct (PyFloat.sqrt x') as [y'|]; reflexivity.
Qed.

Lemma uni_price_delta_eq (mp price : Z) :
  price_delta mp price = Mooniswap.price_delta mp price.
Proof. reflexivity. Qed.

Section SetPrice.

Context (c : Contract) (Hdistinct : token0 c <> token1 c).

Lemma uni_set_price_eq (mp tol : Z) :
  set_price c mp (token0 c) (token1 c) tol =
    let! price := Wad.truediv (reserve0 c) (reserve1 c) in
    let! delta := price_delta mp price in
    if PyFloat.gt_int delta tol then
      let! r := _get_amounts mp (reserve0 c) (reserve1 c) in
      let x := Wad.abs (exact_value r) in
      let! out := last_item (getAmountsOut c x [token0 c; token1 c]) in
      Return (Some (swap_from_exact_amount c x out (token0 c) (token1 c)))
    else if (delta <? 0) && PyFloat.gt_int (PyFloat.abs delta) tol then
      let! r := _get_amounts mp (reserve0 c) (reserve1 c) in
      let x := Wad.abs (exact_value r) in
      let! inp := first_item (getAmountsIn c x [token1 c; token0 c]) in
      Return (Some (swap_to_exact_amount c inp x (token1 c) (token0 c)))
    else Return None.
Proof.
  unfold set_price, reserves_map.
  rewrite !getitem_dict2_first, !getitem_dict2_second by assumption.
  reflexivity.
Qed.

End SetPrice.

End UniswapFacts.

(** * The price delta and the tolerance band *)

Module DeltaFacts.
Import PyFloat PyFloatFacts WadFacts Mooniswap.

Lemma price_delta_unfold (mp price : Z) :
  0 < price ->
  price_delta mp price =
    let! q := of_ratio (mp * 100) price in
    Return (rnd (q - 100 * one) 1).
Proof.
  intros Hp. unfold price_delta, truediv.
  destruct (Z.eqb_spec price 0); [lia|].
  destruct (Z.ltb_spec price 0); [lia|]. reflexivity.
Qed.




(** Inside the exact band the computed delta is inside it too, as long as
    the band's ends are integers a binary64 holds. *)
Lemma price_delta_band (mp price tol : Z) :
  0 < price -> 0 <= mp -> 0 <= tol -> tol + 100 <= 2 ^ 53 ->
  Z.abs (mp - price) * 100 <= tol * price ->
  exists delta,
    price_delta mp price = Return delta /\ - (tol * one) <= delta <= tol * one.
Proof.
  intros Hp Hmp Htol Hbig Hband. pose proof one_pos as Ho.
  rewrite price_delta_unfold by assumption.
  assert (P : 2 ^ 53 <= 2 ^ 1000) by (apply Z.pow_le_mono_r; lia).
  destruct (of_ratio_small (mp * 100) price ltac:(lia) Hp ltac:(nia)) as [-> Q0].
  cbn [bind]. eexists; split; [reflexivity|].
  set (q := rnd (mp * 100 * one) price) in *.
  assert (U : q <= (tol + 100) * one).
  { apply rnd_le; [apply representable_int; lia|assumption|nia]. }
  assert (L : (100 - tol) * one <= q).
  { destruct (Z.le_gt_cases tol 100).
    - apply rnd_ge; [apply representable_int; lia|assumption|nia].
    - nia. }
  split.
  - apply rnd_ge_opp; [apply representable_int; lia|lia|nia].
  - apply rnd_le; [apply representable_int; lia|lia|nia].
Qed.

End DeltaFacts.

(** * Monotonicity of the square root *)

Module SqrtFacts.
Import PyFloat PyFloatFacts WadFacts.

Lemma round53_is_representable (n d : Z) :
  0 <= n -> 0 < d -> representable (round53 n d).
Proof.
  intros Hn Hd. rewrite round53_significand.
  pose proof (significand_upper n d Hn Hd) as U.
  pose proof (significand_nonneg n d Hn Hd) as L.
  pose proof (shift53_nonneg (n / d)) as S.
  destruct (Z.eq_dec (significand n d) (2 ^ 53)) as [E|NE].
  - exists (2 ^ 52), (shift53 (n / d) + 1). split; [|split]; [|lia|].
    + split; [apply Z.pow_nonneg; lia|apply Z.pow_lt_mono_r; lia].
    + rewrite E, Z.pow_add_r by lia. change (2 ^ 53) with (2 ^ 52 * 2 ^ 1). ring.
  - exists (significand n d), (shift53 (n / d)). repeat split; lia.
Qed.

Lemma sqrt_round_parts (N : Z) :
  0 <= N ->
  let s := shift53 (Z.sqrt N) in
  let t := Z.sqrt N / 2 ^ s in
  exists t', sqrt_round N = t' * 2 ^ s /\ t <= t' <= t + 1.
Proof.
  intros HN s t. unfold sqrt_round. fold s. fold t.
  destruct (4 * N ?= (2 * t + 1) ^ 2 * 4 ^ s).
  - destruct (Z.even t); eexists; split; try reflexivity; lia.
  - eexists; split; [reflexivity|lia].
  - eexists; split; [reflexivity|lia].
Qed.

Lemma sqrt_round_nonneg (N : Z) : 0 <= N -> 0 <= sqrt_round N.
Proof.
  intros HN. destruct (sqrt_round_parts N HN) as (t' & -> & L & U).
  pose proof (shift53_nonneg (Z.sqrt N)).
  assert (0 < 2 ^ shift53 (Z.sqrt N)) by (apply Z.pow_pos_nonneg; lia).
  pose proof (Z.sqrt_nonneg N).
  pose proof (Z.div_pos (Z.sqrt N) _ H1 H0). nia.
Qed.

Lemma sqrt_round_representable (N : Z) : 0 <= N -> representable (sqrt_round N).
Proof.
  intros HN. destruct (sqrt_round_parts N HN) as (t' & -> & L & U).
  pose proof (shift53_nonneg (Z.sqrt N)) as S.
  pose proof (Z.sqrt_nonneg N) as R.
  pose proof (shift53_upper _ R) as B.
  assert (0 < 2 ^ shift53 (Z.sqrt N)) by (apply Z.pow_pos_nonneg; lia).
  pose proof (Z.div_pos (Z.sqrt N) _ R H).
  destruct (Z.eq_dec t' (2 ^ 53)) as [E|NE].
  - exists (2 ^ 52), (shift53 (Z.sqrt N) + 1). split; [|split]; [|lia|].
    + split; [apply Z.pow_nonneg; lia|apply Z.pow_lt_mono_r; lia].
    + rewrite E, Z.pow_add_r by lia. change (2 ^ 53) with (2 ^ 52 * 2 ^ 1). ring.
  - exists t', (shift53 (Z.sqrt N)). repeat split; lia.
Qed.

Lemma sqrt_round_mono (N1 N2 : Z) :
  0 <= N1 -> N1 <= N2 -> sqrt_round N1 <= sqrt_round N2.
Proof.
  intros H1 H12.
  pose proof (Z.sqrt_le_mono _ _ H12) as Hr.
  pose proof (shift53_mono _ _ Hr) as Hs.
  pose proof (Z.sqrt_nonneg N1) as R1. pose proof (Z.sqrt_nonneg N2) as R2.
  pose proof (shift53_nonneg (Z.sqrt N1)) as S1.
  destruct (Z.eq_dec (shift53 (Z.sqrt N1)) (shift53 (Z.sqrt N2))) as [E|NE].
  - unfold sqrt_round. rewrite <- E.
    set (s := shift53 (Z.sqrt N1)) in *.
    assert (P : 0 < 2 ^ s) by (apply Z.pow_pos_nonneg; lia).
    pose proof (Z.div_le_mono _ _ (2 ^ s) P Hr) as Ht.
    set (t1 := Z.sqrt N1 / 2 ^ s) in *. set (t2 := Z.sqrt N2 / 2 ^ s) in *.
    apply Z.mul_le_mono_nonneg_r; [lia|].
    destruct (Z.eq_dec t1 t2) as [Et|Net].
    + rewrite <- Et.
      destruct (Z.compare_spec (4 * N1) ((2 * t1 + 1) ^ 2 * 4 ^ s));
      destruct (Z.compare_spec (4 * N2) ((2 * t1 + 1) ^ 2 * 4 ^ s));
        try destruct (Z.even t1); lia.
    + assert (t1 + 1 <= t2) by lia.
      destruct (4 * N1 ?= (2 * t1 + 1) ^ 2 * 4 ^ s);
      destruct (4 * N2 ?= (2 * t2 + 1) ^ 2 * 4 ^ s);
        try destruct (Z.even t1); try destruct (Z.even t2); lia.
  - assert (Hlt : shift53 (Z.sqrt N1) < shift53 (Z.sqrt N2)) by lia.
    destruct (sqrt_round_parts N1 H1) as (a1 & -> & L1 & U1).
    destruct (sqrt_round_parts N2 ltac:(lia)) as (a2 & -> & L2 & U2).
    pose proof (shift53_upper _ R1) as B1.
    pose proof (shift53_lower (Z.sqrt N2) ltac:(lia)) as B2.
    set (s1 := shift53 (Z.sqrt N1)) in *. set (s2 := shift53 (Z.sqrt N2)) in *.
    assert (2 ^ 53 * 2 ^ s1 <= 2 ^ 52 * 2 ^ s2).
    { rewrite <- !Z.pow_add_r by lia. apply Z.pow_le_mono_r; lia. }
    assert (0 < 2 ^ s1) by (apply Z.pow_pos_nonneg; lia).
    assert (0 < 2 ^ s2) by (apply Z.pow_pos_nonneg; lia).
    assert (0 < 2 ^ 52) by (apply Z.pow_pos_nonneg; lia).
    assert (0 < 2 ^ 53) by (apply Z.pow_pos_nonneg; lia).
    nia.
Qed.

Lemma dec_ratio_pos (d p : Z) : 0 < snd (dec_ratio d p).
Proof.
  unfold dec_ratio. destruct (Z.leb_spec 0 p); cbn [snd]; [lia|].
  apply Z.pow_pos_nonneg; lia.
Qed.

Lemma scaled_pos (x p : Z) : 0 < snd (scaled x p).
Proof.
  pose proof one_pos. unfold scaled. destruct (Z.leb_spec 0 p); cbn [snd]; [|lia].
  assert (0 < 10 ^ p) by (apply Z.pow_pos_nonneg; lia). nia.
Qed.

Lemma shortest_reads (fuel : nat) (x p d p' : Z) :
  shortest fuel x p = Some (d, p') -> reads_as d p' x = true.
Proof.
  revert p. induction fuel as [|fuel IH]; intros p; cbn [shortest]; [discriminate|].
  pose proof (scaled_pos x p) as K.
  destruct (scaled x p) as [n k]. cbn [snd] in K.
  destruct (reads_as (n / k) p x) eqn:Lo; destruct (reads_as (n / k + 1) p x) eqn:Hi.
  - intros [= <- <-].
    pose proof (round_half_even_bounds n k K) as [B1 B2].
    destruct (Z.eq_dec (round_half_even n k) (n / k)) as [->|NE]; [assumption|].
    replace (round_half_even n k) with (n / k + 1) by lia. assumption.
  - intros [= <- <-]. assumption.
  - intros [= <- <-]. assumption.
  - apply IH.
Qed.

(** The decimal [repr] gives reads back as the float. *)
Lemma repr_reads (x : Z) :
  representable x ->
  let '(d, p) := repr x in
  let '(n, k) := dec_ratio d p in
  0 < k /\ rnd (n * one) k = x.
Proof.
  intros Hx. unfold repr.
  destruct (shortest 40 x (start_exp x)) as [[d p]|] eqn:E.
  - apply shortest_reads in E. unfold reads_as in E.
    pose proof (dec_ratio_pos d p) as K.
    destruct (dec_ratio d p) as [n k]. cbn [snd] in K.
    split; [assumption|]. apply Z.eqb_eq. assumption.
  - unfold dec_ratio. change (0 <=? -1074) with false. cbv iota.
    change (- -1074) with 1074.
    assert (T : 10 ^ 1074 = 5 ^ 1074 * one).
    { rewrite one_eq, <- Z.pow_mul_l. reflexivity. }
    split; [apply Z.pow_pos_nonneg; lia|].
    rewrite <- Z.mul_assoc, <- T.
    apply rnd_representable; [assumption|apply Z.pow_pos_nonneg; lia].
Qed.

Lemma from_number_pos (x : Z) :
  0 < x -> Wad.from_number x = let '(d, p) := repr x in Wad.scale_down d p.
Proof. intros H. destruct x; [lia|reflexivity|lia]. Qed.

Lemma rnd_pos_inv (n d : Z) : 0 < d -> 0 < rnd n d -> 0 < n.
Proof.
  intros Hd H. destruct (Z.lt_ge_cases 0 n) as [|Hle]; [assumption|exfalso].
  pose proof (rnd_le n d 0 representable_0 Hd ltac:(lia)). lia.
Qed.

Lemma from_number_nonneg (x : Z) :
  representable x -> 0 <= x -> 0 <= Wad.from_number x.
Proof.
  intros Hx H0. destruct (Z.eq_dec x 0) as [->|NZ]; [reflexivity|].
  rewrite from_number_pos by lia. pose proof (repr_reads x Hx) as R.
  destruct (repr x) as [d p]. unfold Wad.scale_down.
  destruct (dec_ratio d p) as [n k]. destruct R as [K R].
  pose proof one_pos. pose proof WAD_pos.
  assert (0 < n * one) by (apply (rnd_pos_inv _ k K); lia).
  apply Z.div_pos; nia.
Qed.

(** [Wad.from_number] is monotone on the floats. *)
Lemma from_number_mono (x1 x2 : Z) :
  representable x1 -> representable x2 -> 0 <= x1 -> x1 <= x2 ->
  Wad.from_number x1 <= Wad.from_number x2.
Proof.
  intros R1 R2 H0 H12.
  destruct (Z.eq_dec x1 0) as [->|NZ].
  { change (Wad.from_number 0) with 0. apply from_number_nonneg; [assumption|lia]. }
  destruct (Z.eq_dec x1 x2) as [->|NE]; [lia|].
  rewrite !from_number_pos by lia.
  pose proof (repr_reads x1 R1) as P1. pose proof (repr_reads x2 R2) as P2.
  destruct (repr x1) as [d1 p1]. destruct (repr x2) as [d2 p2].
  unfold Wad.scale_down.
  destruct (dec_ratio d1 p1) as [n1 k1]. destruct (dec_ratio d2 p2) as [n2 k2].
  destruct P1 as [K1 E1]. destruct P2 as [K2 E2].
  pose proof one_pos as Ho. pose proof WAD_pos as HW.
  assert (C : n1 * k2 <= n2 * k1).
  { destruct (Z.le_gt_cases (n1 * k2) (n2 * k1)) as [|G]; [assumption|exfalso].
    assert (M : n2 * one * k1 <= n1 * one * k2).
    { replace (n2 * one * k1) with (n2 * k1 * one) by ring.
      replace (n1 * one * k2) with (n1 * k2 * one) by ring.
      apply Z.mul_le_mono_nonneg_r; lia. }
    pose proof (rnd_mono (n2 * one) k2 (n1 * one) k1 K2 K1 M). lia. }
  apply div_le_cross; try assumption. nia.
Qed.

(** The square root on [Wad] is monotone. *)
Lemma wad_sqrt_mono (w1 w2 v1 v2 : Z) :
  0 <= w1 -> w1 <= w2 ->
  Wad.sqrt w1 = Return v1 -> Wad.sqrt w2 = Return v2 -> v1 <= v2.
Proof.
  intros H0 H12. unfold Wad.sqrt, Wad.to_float, truediv.
  pose proof WAD_pos as HW. pose proof one_pos as Ho.
  destruct (Z.eqb_spec Wad.WAD 0); [lia|].
  destruct (Z.ltb_spec Wad.WAD 0); [lia|].
  unfold of_ratio.
  destruct (huge <=? Z.abs (rnd (w1 * one) Wad.WAD)); [discriminate|].
  destruct (huge <=? Z.abs (rnd (w2 * one) Wad.WAD)); [discriminate|].
  cbn [bind]. unfold sqrt.
  assert (X1 : 0 <= rnd (w1 * one) Wad.WAD).
  { rewrite rnd_nonneg by nia. apply round53_nonneg; nia. }
  assert (M : w1 * one * Wad.WAD <= w2 * one * Wad.WAD).
  { apply Z.mul_le_mono_nonneg_r; [lia|].
    apply Z.mul_le_mono_nonneg_r; lia. }
  pose proof (rnd_mono (w1 * one) Wad.WAD (w2 * one) Wad.WAD HW HW M) as X12.
  destruct (Z.ltb_spec (rnd (w1 * one) Wad.WAD) 0); [lia|].
  destruct (Z.ltb_spec (rnd (w2 * one) Wad.WAD) 0); [lia|].
  cbn [bind]. intros [= <-] [= <-].
  apply from_number_mono.
  - apply sqrt_round_representable; nia.
  - apply sqrt_round_representable; nia.
  - apply sqrt_round_nonneg; nia.
  - apply sqrt_round_mono; nia.
Qed.

End SqrtFacts.

Module MoonTrade.
Import Mooniswap WadFacts.

(** What an emitted Mooniswap trade carries. *)
Lemma emitted_trade (t0 t1 : Address) (a b mp tol : Z)
    (gr : Address -> Address -> Z -> Z) (s : Transact) :
  t0 <> t1 ->
  set_price (moon_pool t0 t1 a b gr) mp t0 t1 tol = Return (Some s) ->
  exists na q nb,
    Wad.sqrt (Wad.mul (Wad.mul a b) mp) = Return na /\
    Wad.truediv (Wad.mul a b) mp = Return q /\
    Wad.sqrt q = Return nb /\
    ((src s = t0 /\ dst s = t1 /\
      amount s = if Wad.gt na a then na - a else a - na) \/
     (src s = t1 /\ dst s = t0 /\
      amount s = if Wad.gt na a then b - nb else nb - b)).
Proof.
  intros Hd.
  rewrite (MooniswapFacts.moon_set_price_eq (moon_pool t0 t1 a b gr) Hd).
  cbn [balance0 balance1 token0 token1].
  change (reserves_map (moon_pool t0 t1 a b gr)) with (dict2 t0 a t1 b).
  rewrite MooniswapFacts.moon_get_amounts_eq by assumption.
  destruct (Wad.truediv a b) as [price|]; [|discriminate]. cbn [bind].
  destruct (price_delta mp price) as [delta|]; [|discriminate]. cbn [bind].
  destruct (PyFloat.gt_int delta tol).
  - destruct (Wad.sqrt (Wad.mul (Wad.mul a b) mp)) as [na|] eqn:A;
      [|discriminate].
    cbn [bind].
    destruct (Wad.truediv (Wad.mul a b) mp) as [q|] eqn:Q; [|discriminate].
    cbn [bind].
    destruct (Wad.sqrt q) as [nb|] eqn:B; [|discriminate].
    cbn [bind]. intros [= <-]. exists na, q, nb.
    split; [reflexivity|]. split; [reflexivity|]. split; [exact B|].
    left. unfold swap, Wad.sub.
    destruct (N.eqb t0 zero_address); destruct (Wad.gt na a); cbn; auto.
  - destruct ((delta <? 0) && PyFloat.gt_int (PyFloat.abs delta) tol);
      [|discriminate].
    destruct (Wad.sqrt (Wad.mul (Wad.mul a b) mp)) as [na|] eqn:A;
      [|discriminate].
    cbn [bind].
    destruct (Wad.truediv (Wad.mul a b) mp) as [q|] eqn:Q; [|discriminate].
    cbn [bind].
    destruct (Wad.sqrt q) as [nb|] eqn:B; [|discriminate].
    cbn [bind]. intros [= <-]. exists na, q, nb.
    split; [reflexivity|]. split; [reflexivity|]. split; [exact B|].
    right. unfold swap, Wad.sub.
    destruct (N.eqb t1 zero_address); destruct (Wad.gt na a); cbn; auto.
Qed.

End MoonTrade.

(** * Precision of the square root *)

Module PrecisionFacts.
Import PyFloat PyFloatFacts WadFacts SqrtFacts.

(** Rounding to the nearest integer errs by at most a half. *)
Lemma round_half_even_err (n d : Z) :
  0 < d -> 2 * Z.abs (round_half_even n d * d - n) <= d.
Proof.
  intros Hd. unfold round_half_even.
  pose proof (Z.div_mod n d ltac:(lia)) as E.
  pose proof (Z.mod_pos_bound n d Hd) as M.
  destruct (Z.compare_spec (2 * (n mod d)) d); try destruct (Z.even (n / d)); nia.
Qed.

(** Rounding to 53 bits errs by at most [2^-53] of the value. *)
Lemma round53_rel (n d : Z) :
  0 < d -> 2 ^ 53 * d <= n ->
  2 ^ 53 * Z.abs (round53 n d * d - n) <= n.
Proof.
  intros Hd Hn.
  assert (U : 0 < 2 ^ 53) by (apply Z.pow_pos_nonneg; lia).
  assert (Q : 2 ^ 53 <= n / d) by (apply Z.div_le_lower_bound; lia).
  assert (S : 0 < shift53 (n / d)).
  { unfold shift53. assert (53 <= Z.log2 (n / d)) by (apply Z.log2_le_pow2; lia). lia. }
  pose proof (shift53_lower _ S) as L.
  rewrite round53_significand. unfold significand.
  set (P := 2 ^ shift53 (n / d)) in *.
  assert (HP : 0 < P) by (apply Z.pow_pos_nonneg; lia).
  pose proof (round_half_even_err n (d * P) ltac:(nia)) as E.
  set (m := round_half_even n (d * P)) in *.
  assert (B : 2 ^ 52 * (d * P) <= n).
  { pose proof (Z.mul_div_le (n / d) P HP). pose proof (Z.mul_div_le n d Hd).
    assert (2 ^ 52 * P <= n / d) by nia. nia. }
  replace (m * P * d) with (m * (d * P)) by ring.
  change (2 ^ 53) with (2 ^ 52 * 2). nia.
Qed.

Lemma round53_rel_bounds (n d : Z) :
  0 < d -> 2 ^ 53 * d <= n ->
  (2 ^ 53 - 1) * n <= 2 ^ 53 * (round53 n d * d) <= (2 ^ 53 + 1) * n.
Proof.
  intros Hd Hn. pose proof (round53_rel n d Hd Hn). lia.
Qed.

(** [math.sqrt] errs by at most [2^-53] of the value. *)
Lemma sqrt_round_rel (N : Z) :
  2 ^ 106 <= N ->
  let y := sqrt_round N in
  (2 ^ 53 - 1) ^ 2 * y ^ 2 <= (2 ^ 53) ^ 2 * N <= (2 ^ 53 + 1) ^ 2 * y ^ 2.
Proof.
  intros HN y.
  assert (N0 : 0 <= N) by (assert (0 < 2 ^ 106) by (apply Z.pow_pos_nonneg; lia); lia).
  pose proof (Z.sqrt_spec N N0) as R. cbv zeta in R.
  set (r := Z.sqrt N) in *.
  assert (Hr : 2 ^ 53 <= r).
  { replace (2 ^ 53) with (Z.sqrt (2 ^ 106)).
    - apply Z.sqrt_le_mono. assumption.
    - change (2 ^ 106) with (2 ^ 53 * 2 ^ 53). apply Z.sqrt_square.
      apply Z.pow_nonneg. lia. }
  assert (U : 0 < 2 ^ 53) by (apply Z.pow_pos_nonneg; lia).
  assert (S : 0 < shift53 r).
  { unfold shift53. assert (53 <= Z.log2 r) by (apply Z.log2_le_pow2; lia). lia. }
  pose proof (shift53_lower _ S) as L.
  subst y. unfold sqrt_round. fold r.
  set (s := shift53 r) in *.
  assert (E4 : 4 ^ s = 2 ^ s * 2 ^ s).
  { change 4 with (2 * 2). rewrite Z.pow_mul_l. reflexivity. }
  rewrite E4.
  set (P := 2 ^ s) in *.
  assert (HP : 0 < P) by (apply Z.pow_pos_nonneg; lia).
  pose proof (Z.div_mod r P ltac:(lia)) as D.
  pose proof (Z.mod_pos_bound r P HP) as M.
  set (t := r / P) in *.
  assert (T1 : t * P <= r) by nia.
  assert (T2 : r + 1 <= (t + 1) * P) by nia.
  assert (L52 : 2 ^ 52 * P <= t * P) by nia.
  assert (Sq1 : (t * P) * (t * P) <= N) by nia.
  assert (Sq2 : N < ((t + 1) * P) * ((t + 1) * P)) by nia.
  rewrite !Z.pow_2_r.
  change (2 ^ 53) with (2 * 2 ^ 52) in *.
  set (h := 2 ^ 52) in *.
  assert (Hh : 0 < h) by (apply Z.pow_pos_nonneg; lia).
  destruct (Z.compare_spec (4 * N) ((2 * t + 1) * (2 * t + 1) * (P * P))) as [C|C|C].
  - destruct (Z.even t).
    + split.
      * assert ((2 * h - 1) * (t * P) <= 2 * h * (t * P)) by nia.
        assert (A : ((2 * h - 1) * (t * P)) * ((2 * h - 1) * (t * P)) <= (2 * h * (t * P)) * (2 * h * (t * P))) by nia.
        nia.
      * assert (B : 2 * h * ((2 * t + 1) * P) <= (2 * h + 1) * (2 * (t * P))) by nia.
        assert (B2 : (2 * h * ((2 * t + 1) * P)) * (2 * h * ((2 * t + 1) * P)) <= ((2 * h + 1) * (2 * (t * P))) * ((2 * h + 1) * (2 * (t * P)))) by nia.
        nia.
    + split.
      * assert (B : (2 * h - 1) * (2 * ((t + 1) * P)) <= 2 * h * ((2 * t + 1) * P)) by nia.
        assert (B2 : ((2 * h - 1) * (2 * ((t + 1) * P))) * ((2 * h - 1) * (2 * ((t + 1) * P))) <= (2 * h * ((2 * t + 1) * P)) * (2 * h * ((2 * t + 1) * P))) by nia.
        nia.
      * nia.
  - split.
    + nia.
    + assert (B : 2 * h * ((2 * t + 1) * P) <= (2 * h + 1) * (2 * (t * P))) by nia.
      assert (B2 : (2 * h * ((2 * t + 1) * P)) * (2 * h * ((2 * t + 1) * P)) <= ((2 * h + 1) * (2 * (t * P))) * ((2 * h + 1) * (2 * (t * P)))) by nia.
      nia.
  - split.
    + assert (B : (2 * h - 1) * (2 * ((t + 1) * P)) <= 2 * h * ((2 * t + 1) * P)) by nia.
      assert (B2 : ((2 * h - 1) * (2 * ((t + 1) * P))) * ((2 * h - 1) * (2 * ((t + 1) * P))) <= (2 * h * ((2 * t + 1) * P)) * (2 * h * ((2 * t + 1) * P))) by nia.
      nia.
    + nia.
Qed.

Lemma square_le (a b : Z) : 0 <= a -> a <= b -> a * a <= b * b.
Proof. intros Ha Hab. apply Z.mul_le_mono_nonneg; lia. Qed.

(** Four roundings, each within [1/u] of its value, composed. *)
Lemma precision_chain (u W o w x y n k v : Z) :
  1 < u -> 0 < W -> 0 < o -> 0 <= w -> 0 <= x -> 0 <= y -> 0 < k -> 0 <= n ->
  0 <= v ->
  (u - 1) * (w * o) <= u * (x * W) <= (u + 1) * (w * o) ->
  (u - 1) ^ 2 * y ^ 2 <= u ^ 2 * (x * o) <= (u + 1) ^ 2 * y ^ 2 ->
  (u - 1) * (n * o) <= u * (y * k) <= (u + 1) * (n * o) ->
  v * k <= n * W < (v + 1) * k ->
  (u - 1) ^ 4 * v ^ 2 <= u ^ 3 * (u + 1) * (w * W) /\
  u ^ 3 * (u - 1) * (w * W) <= (u + 1) ^ 4 * (v + 1) ^ 2.
Proof.
  intros Hu HW Ho Hw Hx Hy Hk Hn Hv [H1l H1u] [H2l H2u] [H3l H3u] [H4l H4u].
  assert (Hoo : 0 < o * o) by (apply Z.mul_pos_pos; assumption).
  assert (Hu1 : 0 <= u - 1) by lia.
  assert (Hu0 : 0 <= u) by lia.
  assert (Hup : 0 <= u + 1) by lia.
  assert (HW0 : 0 <= W) by lia.
  assert (Ho0 : 0 <= o) by lia.
  assert (Hk0 : 0 <= k) by lia.
  split.
  - (* a = v (u-1) o,  b = u y W *)
    assert (A : v * (u - 1) * o <= u * y * W).
    { apply (Z.mul_le_mono_pos_r _ _ k Hk).
      apply Z.le_trans with (m := n * W * ((u - 1) * o)).
      - replace (v * (u - 1) * o * k) with (v * k * ((u - 1) * o)) by ring.
        apply Z.mul_le_mono_nonneg_r; [apply Z.mul_nonneg_nonneg; lia|assumption].
      - replace (n * W * ((u - 1) * o)) with (W * ((u - 1) * (n * o))) by ring.
        replace (u * y * W * k) with (W * (u * (y * k))) by ring.
        apply Z.mul_le_mono_nonneg_l; assumption. }
    assert (A0 : 0 <= v * (u - 1) * o)
      by (repeat apply Z.mul_nonneg_nonneg; lia).
    pose proof (square_le _ _ A0 A) as B.
    apply (Z.mul_le_mono_pos_r _ _ (o * o) Hoo).
    apply Z.le_trans with (m := (u - 1) * (u - 1) * ((u * y * W) * (u * y * W))).
    { replace ((u - 1) ^ 4 * v ^ 2 * (o * o))
        with ((u - 1) * (u - 1) * ((v * (u - 1) * o) * (v * (u - 1) * o))) by ring.
      apply Z.mul_le_mono_nonneg_l; [apply Z.mul_nonneg_nonneg; lia|assumption]. }
    apply Z.le_trans with (m := (u * W) * (u * W) * (u ^ 2 * (x * o))).
    { replace ((u - 1) * (u - 1) * ((u * y * W) * (u * y * W)))
        with ((u * W) * (u * W) * ((u - 1) ^ 2 * y ^ 2)) by ring.
      apply Z.mul_le_mono_nonneg_l; [|assumption].
      apply Z.mul_nonneg_nonneg; apply Z.mul_nonneg_nonneg; lia. }
    replace ((u * W) * (u * W) * (u ^ 2 * (x * o)))
      with (u ^ 3 * W * o * (u * (x * W))) by ring.
    replace (u ^ 3 * (u + 1) * (w * W) * (o * o))
      with (u ^ 3 * W * o * ((u + 1) * (w * o))) by ring.
    apply Z.mul_le_mono_nonneg_l; [|assumption].
    repeat apply Z.mul_nonneg_nonneg; try lia; apply Z.pow_nonneg; lia.
  - assert (A : u * y * W <= (v + 1) * (u + 1) * o).
    { apply (Z.mul_le_mono_pos_r _ _ k Hk).
      apply Z.le_trans with (m := W * ((u + 1) * (n * o))).
      - replace (u * y * W * k) with (W * (u * (y * k))) by ring.
        apply Z.mul_le_mono_nonneg_l; assumption.
      - replace (W * ((u + 1) * (n * o))) with (n * W * ((u + 1) * o)) by ring.
        replace ((v + 1) * (u + 1) * o * k) with ((v + 1) * k * ((u + 1) * o)) by ring.
        apply Z.mul_le_mono_nonneg_r; [apply Z.mul_nonneg_nonneg; lia|lia]. }
    assert (A0 : 0 <= u * y * W)
      by (repeat apply Z.mul_nonneg_nonneg; lia).
    pose proof (square_le _ _ A0 A) as B.
    apply (Z.mul_le_mono_pos_r _ _ (o * o) Hoo).
    replace (u ^ 3 * (u - 1) * (w * W) * (o * o))
      with (u ^ 3 * W * o * ((u - 1) * (w * o))) by ring.
    apply Z.le_trans with (m := u ^ 3 * W * o * (u * (x * W))).
    { apply Z.mul_le_mono_nonneg_l; [|assumption].
      repeat apply Z.mul_nonneg_nonneg; try lia; apply Z.pow_nonneg; lia. }
    replace (u ^ 3 * W * o * (u * (x * W)))
      with ((u * W) * (u * W) * (u ^ 2 * (x * o))) by ring.
    apply Z.le_trans with (m := (u * W) * (u * W) * ((u + 1) ^ 2 * y ^ 2)).
    { apply Z.mul_le_mono_nonneg_l; [|assumption].
      apply Z.mul_nonneg_nonneg; apply Z.mul_nonneg_nonneg; lia. }
    replace ((u * W) * (u * W) * ((u + 1) ^ 2 * y ^ 2))
      with ((u + 1) * (u + 1) * ((u * y * W) * (u * y * W))) by ring.
    replace ((u + 1) ^ 4 * (v + 1) ^ 2 * (o * o))
      with ((u + 1) * (u + 1)
            * (((v + 1) * (u + 1) * o) * ((v + 1) * (u + 1) * o))) by ring.
    apply Z.mul_le_mono_nonneg_l; [apply Z.mul_nonneg_nonneg; lia|assumption].
Qed.

Lemma representable_pow53 : representable (2 ^ 53).
Proof.
  exists (2 ^ 52), 1. split; [|split]; [|lia|reflexivity].
  split; [apply Z.pow_nonneg; lia|apply Z.pow_lt_mono_r; lia].
Qed.

Lemma one_large : 2 ^ 53 * Wad.WAD <= one /\ 2 ^ 108 <= one.
Proof.
  rewrite one_eq, WAD_eq. split.
  - apply Z.le_trans with (m := 2 ^ 53 * 2 ^ 60).
    + apply Z.mul_le_mono_nonneg_l; [apply Z.pow_nonneg; lia|].
      apply Z.leb_le. vm_compute. reflexivity.
    + rewrite <- Z.pow_add_r by lia. apply Z.pow_le_mono_r; lia.
  - apply Z.pow_le_mono_r; lia.
Qed.

(** The float square root, read back into [Wad], is within [2^-50] (in the
    square) of the exact root. *)
Lemma wad_sqrt_precision (w v : Z) :
  1 <= w <= 2 ^ 1000 -> Wad.sqrt w = Return v ->
  0 <= v /\
  2 ^ 50 * v ^ 2 <= (2 ^ 50 + 1) * (w * Wad.WAD) /\
  (2 ^ 50 - 1) * (w * Wad.WAD) <= 2 ^ 50 * (v + 1) ^ 2.
Proof.
  intros [Hw1 Hw2] E. rewrite sqrt_small in E by lia. injection E as <-.
  pose proof one_pos as Ho. pose proof WAD_pos as HW.
  destruct one_large as [L1 L2].
  assert (U : 0 < 2 ^ 53) by (apply Z.pow_pos_nonneg; lia).
  rewrite rnd_nonneg by nia.
  pose proof (round53_rel_bounds (w * one) Wad.WAD HW ltac:(nia)) as H1.
  pose proof (round53_nonneg (w * one) Wad.WAD ltac:(nia) HW) as X0.
  set (x := round53 (w * one) Wad.WAD) in *.
  assert (X1 : 1 <= x) by nia.
  assert (N108 : 2 ^ 108 <= x * one) by nia.
  assert (N106 : 2 ^ 106 <= x * one).
  { apply Z.le_trans with (m := 2 ^ 108); [apply Z.pow_le_mono_r; lia|assumption]. }
  pose proof (sqrt_round_rel (x * one) N106) as H2. cbv zeta in H2.
  pose proof (sqrt_round_representable (x * one) ltac:(nia)) as Ry.
  assert (Y54 : 2 ^ 54 <= sqrt_round (x * one)).
  { replace (2 ^ 54) with (sqrt_round (2 ^ 108)) by (vm_compute; reflexivity).
    apply sqrt_round_mono; [apply Z.pow_nonneg; lia|assumption]. }
  set (y := sqrt_round (x * one)) in *.
  assert (Y0 : 0 < y).
  { assert (0 < 2 ^ 54) by (apply Z.pow_pos_nonneg; lia). lia. }
  rewrite from_number_pos by assumption.
  pose proof (repr_reads y Ry) as R.
  destruct (repr y) as [d p]. unfold Wad.scale_down.
  destruct (dec_ratio d p) as [n k]. destruct R as [K R].
  assert (Hn : 0 < n * one) by (apply (rnd_pos_inv _ k K); lia).
  assert (Hn0 : 0 < n) by nia.
  rewrite rnd_nonneg in R by lia.
  assert (Big : 2 ^ 53 * k <= n * one).
  { destruct (Z.le_gt_cases (2 ^ 53 * k) (n * one)) as [|G]; [assumption|exfalso].
    pose proof (rnd_le (n * one) k (2 ^ 53) representable_pow53 K ltac:(lia)) as T.
    rewrite rnd_nonneg in T by lia.
    assert (2 ^ 53 < 2 ^ 54) by (apply Z.pow_lt_mono_r; lia). lia. }
  pose proof (round53_rel_bounds (n * one) k K Big) as H3. rewrite R in H3.
  pose proof (Z.mul_div_le (n * Wad.WAD) k K) as D1.
  pose proof (Z.mul_succ_div_gt (n * Wad.WAD) k K) as D2.
  set (v := n * Wad.WAD / k) in *.
  assert (V0 : 0 <= v) by (apply Z.div_pos; nia).
  split; [assumption|].
  assert (P0 : 0 <= w * Wad.WAD) by nia.
  assert (Q1 : 0 <= v ^ 2) by (apply Z.pow_nonneg; lia).
  assert (Q2 : 0 <= (v + 1) ^ 2) by (apply Z.pow_nonneg; lia).
  destruct (precision_chain (2 ^ 53) Wad.WAD one w x y n k v) as [P1 P2];
    [lia|lia|lia|lia|lia|lia|lia|lia|lia|lia|exact H2|lia|lia|].
  lia.
Qed.

(** The same bound against the exact integer square root. *)
Lemma wad_sqrt_close (w v : Z) :
  0 <= w <= 2 ^ 1000 -> Wad.sqrt w = Return v ->
  2 ^ 50 * v ^ 2 <= (2 ^ 50 + 1) * (exact_sqrt w + 1) ^ 2 /\
  (2 ^ 50 - 1) * exact_sqrt w ^ 2 <= 2 ^ 50 * (v + 1) ^ 2.
Proof.
  intros [W0 W1] E. unfold exact_sqrt.
  destruct (Z.eq_dec w 0) as [->|NZ].
  - assert (Wad.sqrt 0 = Return 0) as Z0 by (vm_compute; reflexivity).
    rewrite Z0 in E. injection E as <-.
    split; apply Z.leb_le; vm_compute; reflexivity.
  - pose proof WAD_pos as HW.
    destruct (wad_sqrt_precision w v ltac:(lia) E) as (V0 & P1 & P2).
    assert (P0 : 0 <= w * Wad.WAD) by nia.
    pose proof (Z.sqrt_spec (w * Wad.WAD) P0) as S. cbv zeta in S.
    pose proof (Z.sqrt_nonneg (w * Wad.WAD)) as S0.
    set (e := Z.sqrt (w * Wad.WAD)) in *.
    set (P := w * Wad.WAD) in *.
    rewrite !Z.pow_2_r in *. unfold Z.succ in S.
    assert (U : 0 < 2 ^ 50) by (apply Z.pow_pos_nonneg; lia).
    set (u := 2 ^ 50) in *.
    split.
    + apply Z.le_trans with (m := (u + 1) * P); [assumption|].
      apply Z.mul_le_mono_nonneg_l; lia.
    + apply Z.le_trans with (m := (u - 1) * P); [|assumption].
      apply Z.mul_le_mono_nonneg_l; lia.
Qed.

(** The two products of the derivation stay in the range of the floats. *)
Lemma targets_range (a b mp : Z) :
  0 < a < 2 ^ 256 -> 0 < b < 2 ^ 256 -> 0 < mp < 2 ^ 256 ->
  0 <= Wad.mul (Wad.mul a b) mp <= 2 ^ 1000 /\
  0 <= Wad.mul a b * Wad.WAD / mp <= 2 ^ 1000.
Proof.
  intros Ha Hb Hmp. pose proof WAD_pos as HW.
  pose proof (mul_nonneg a b ltac:(lia) ltac:(lia)) as K0.
  pose proof (mul_le a b ltac:(lia) ltac:(lia)) as K1.
  assert (P256 : 2 ^ 256 * 2 ^ 256 = 2 ^ 512) by (rewrite <- Z.pow_add_r by lia; reflexivity).
  assert (K2 : Wad.mul a b <= 2 ^ 512) by nia.
  pose proof (mul_nonneg _ mp K0 ltac:(lia)) as M0.
  pose proof (mul_le _ mp K0 ltac:(lia)) as M1.
  assert (P768 : 2 ^ 512 * 2 ^ 256 = 2 ^ 768) by (rewrite <- Z.pow_add_r by lia; reflexivity).
  assert (M2 : Wad.mul (Wad.mul a b) mp <= 2 ^ 1000).
  { assert (2 ^ 768 <= 2 ^ 1000) by (apply Z.pow_le_mono_r; lia).
    assert (0 < 2 ^ 256) by (apply Z.pow_pos_nonneg; lia). nia. }
  assert (Q0 : 0 <= Wad.mul a b * Wad.WAD / mp) by (apply Z.div_pos; nia).
  assert (Q1 : Wad.mul a b * Wad.WAD / mp <= 2 ^ 1000).
  { apply Z.div_le_upper_bound; [lia|].
    assert (Wad.WAD <= 2 ^ 488).
    { rewrite WAD_eq. apply Z.le_trans with (m := 2 ^ 60).
      - apply Z.leb_le. vm_compute. reflexivity.
      - apply Z.pow_le_mono_r; lia. }
    assert (2 ^ 512 * 2 ^ 488 = 2 ^ 1000) by (rewrite <- Z.pow_add_r by lia; reflexivity).
    assert (0 < 2 ^ 1000) by (apply Z.pow_pos_nonneg; lia).
    nia. }
  split; split; assumption.
Qed.

End PrecisionFacts.

(** * Properties of the rebalancing evaluation *)

Import ListNotations.

(** C3 (as amended).  Dead zone: when the pool price [price = a / b] (the
    [Wad] quotient the code computes) satisfies
    [|market_price / price - 1| * 100 <= tolerance], boundary included, and
    the tolerance is an integer with [tolerance + 100 <= 2^53], both market
    makers return [None] and emit no trade. *)
Theorem dead_zone_returns_none
    (t0 t1 : Address) (a b mp tol price : Z)
    (gr : Address -> Address -> Z -> Z) (acct : Address)
    (gao gai : Z -> list Address -> list Z) :
  t0 <> t1 -> 0 < mp -> 0 < a -> 0 < b -> 0 <= tol -> tol + 100 <= 2 ^ 53 ->
  Wad.truediv a b = Return price ->
  Z.abs (mp - price) * 100 <= tol * price ->
  Mooniswap.set_price (moon_pool t0 t1 a b gr) mp t0 t1 tol = Return None /\
  UniswapV2.set_price (uni_pool t0 t1 a b acct gao gai) mp t0 t1 tol
    = Return None.
Proof.
  intros Hd Hmp Ha Hb Htol Hbig Hprice Hband.
  assert (Hp : 0 < price).
  { rewrite WadFacts.truediv_pos in Hprice by lia. injection Hprice as <-.
    pose proof WadFacts.WAD_pos.
    pose proof (Z.div_pos (a * Wad.WAD) b ltac:(nia) Hb). nia. }
  destruct (DeltaFacts.price_delta_band mp price tol Hp ltac:(lia) Htol Hbig Hband)
    as (delta & E & L & U).
  assert (G : PyFloat.gt_int delta tol = false).
  { unfold PyFloat.gt_int. apply Z.ltb_ge. exact U. }
  assert (G' : (delta <? 0) && PyFloat.gt_int (PyFloat.abs delta) tol = false).
  { unfold PyFloat.gt_int, PyFloat.abs.
    destruct (Z.ltb_spec delta 0); [|reflexivity].
    cbn [andb]. apply Z.ltb_ge. lia. }
  split.
  - rewrite (MooniswapFacts.moon_set_price_eq (moon_pool t0 t1 a b gr) Hd).
    cbn [Mooniswap.balance0 Mooniswap.balance1].
    rewrite Hprice. cbn [bind]. rewrite E. cbn [bind]. rewrite G, G'. reflexivity.
  - rewrite (UniswapFacts.uni_set_price_eq (uni_pool t0 t1 a b acct gao gai) Hd).
    cbn [UniswapV2.reserve0 UniswapV2.reserve1].
    rewrite Hprice. cbn [bind]. rewrite UniswapFacts.uni_price_delta_eq, E.
    cbn [bind]. rewrite G, G'. reflexivity.
Qed.

Lemma dead_zone_returns_none_witness :
  Mooniswap.set_price
    (moon_pool 1%N 2%N (1000 * 10 ^ 18) (1000 * 10 ^ 18) (fun _ _ x => x))
    (10 ^ 18 + 10 ^ 16) 1%N 2%N 1 = Return None /\
  UniswapV2.set_price
    (uni_pool 1%N 2%N (1000 * 10 ^ 18) (1000 * 10 ^ 18) 7%N
       (fun x _ => [x; x]) (fun x _ => [x; x]))
    (10 ^ 18 + 10 ^ 16) 1%N 2%N 1 = Return None.
Proof.
  apply (dead_zone_returns_none 1%N 2%N (1000 * 10 ^ 18) (1000 * 10 ^ 18)
           (10 ^ 18 + 10 ^ 16) 1 (10 ^ 18)).
  - discriminate.
  - reflexivity.
  - reflexivity.
  - reflexivity.
  - discriminate.
  - vm_compute. discriminate.
  - vm_compute. reflexivity.
  - vm_compute. discriminate.
Defined.

(** C3 as stated fails for tolerances beyond the integers a binary64 holds:
    with [price = 100] wei, [market_price = 2^53 + 103] wei and
    [tolerance = 2^53 + 3] the exact delta is on the boundary, but
    [market_price * 100 / price] rounds up to [2^53 + 104] and a trade is
    emitted. *)
Lemma dead_zone_counterexample :
  let mp := 2 ^ 53 + 103 in
  let tol := 2 ^ 53 + 3 in
  0 < mp /\ 0 <= tol /\
  Wad.truediv 100 (10 ^ 18) = Return 100 /\
  Z.abs (mp - 100) * 100 <= tol * 100 /\
  Mooniswap.set_price (moon_pool 1%N 2%N 100 (10 ^ 18) (fun _ _ x => x))
    mp 1%N 2%N tol
  = Return (Some {| Mooniswap.src := 1%N; Mooniswap.dst := 2%N;
                    Mooniswap.amount := 100; Mooniswap.min_return := 100;
                    Mooniswap.referral := 0%N; Mooniswap.value := None |}).
Proof.
  cbv zeta.
  split; [vm_compute; reflexivity|].
  split; [vm_compute; discriminate|].
  split; [vm_compute; reflexivity|].
  split; [vm_compute; discriminate|].
  vm_compute. reflexivity.
Qed.



(** C8.  A pool with a zero reserve on either side is rejected: both market
    makers raise (Python's [ZeroDivisionError]) and return neither a trade
    nor [None]. *)
Theorem zero_reserve_raises
    (t0 t1 : Address) (a b mp tol : Z)
    (gr : Address -> Address -> Z -> Z) (acct : Address)
    (gao gai : Z -> list Address -> list Z) :
  t0 <> t1 -> a = 0 \/ b = 0 ->
  Mooniswap.set_price (moon_pool t0 t1 a b gr) mp t0 t1 tol
    = Raise ZeroDivisionError /\
  UniswapV2.set_price (uni_pool t0 t1 a b acct gao gai) mp t0 t1 tol
    = Raise ZeroDivisionError.
Proof.
  intros Hd Hz.
  split.
  - rewrite (MooniswapFacts.moon_set_price_eq (moon_pool t0 t1 a b gr) Hd).
    cbn [Mooniswap.balance0 Mooniswap.balance1].
    unfold Wad.truediv.
    destruct (Z.eqb_spec b 0) as [|Hb]; [reflexivity|].
    destruct Hz as [->|]; [|contradiction].
    cbn [bind]. rewrite Z.mul_0_l, Z.quot_0_l by assumption. reflexivity.
  - rewrite (UniswapFacts.uni_set_price_eq (uni_pool t0 t1 a b acct gao gai) Hd).
    cbn [UniswapV2.reserve0 UniswapV2.reserve1].
    unfold Wad.truediv.
    destruct (Z.eqb_spec b 0) as [|Hb]; [reflexivity|].
    destruct Hz as [->|]; [|contradiction].
    cbn [bind]. rewrite Z.mul_0_l, Z.quot_0_l by assumption. reflexivity.
Qed.

Lemma zero_reserve_raises_witness :
  Mooniswap.set_price (moon_pool 1%N 2%N 0 (1000 * 10 ^ 18) (fun _ _ x => x))
    (10 ^ 18) 1%N 2%N 1 = Raise ZeroDivisionError /\
  UniswapV2.set_price
    (uni_pool 1%N 2%N 0 (1000 * 10 ^ 18) 7%N
       (fun x _ => [x; x]) (fun x _ => [x; x]))
    (10 ^ 18) 1%N 2%N 1 = Raise ZeroDivisionError.
Proof.
  apply (zero_reserve_raises 1%N 2%N 0 (1000 * 10 ^ 18) (10 ^ 18) 1).
  - discriminate.
  - left. reflexivity.
Defined.



(** C2 (as amended).  The symmetric case: when [new_a = sqrt(k * mp) <= a],
    the Mooniswap trade that sells token B for token A pays in
    [new_b - b] (the amount of B the pool must gain), where
    [new_b = sqrt(k / mp)]. *)
Theorem sell_b_amount
    (t0 t1 : Address) (a b mp : Z) (gr : Address -> Address -> Z -> Z) :
  t0 <> t1 -> 0 < a < 2 ^ 256 -> 0 < b < 2 ^ 256 -> 0 < mp < 2 ^ 256 ->
  let k := Wad.mul a b in
  exists new_a new_b q,
    Wad.sqrt (Wad.mul k mp) = Return new_a /\
    Wad.truediv k mp = Return q /\
    Wad.sqrt q = Return new_b /\
    (new_a <= a ->
     forall tol t,
       Mooniswap.set_price (moon_pool t0 t1 a b gr) mp t0 t1 tol
         = Return (Some t) ->
       Mooniswap.src t = t1 ->
       Mooniswap.dst t = t0 /\ Mooniswap.amount t = new_b - b).
Proof.
  intros Hd Ha Hb Hmp k.
  destruct (WadFacts.targets_total a b mp Ha Hb Hmp)
    as (n1 & n2 & E1 & E2 & E3).
  exists n1, n2, (Wad.mul a b * Wad.WAD / mp). subst k.
  split; [exact E1|]. split; [exact E2|]. split; [exact E3|].
  intros Hle tol t.
  rewrite (MooniswapFacts.moon_set_price_eq (moon_pool t0 t1 a b gr) Hd).
  cbn [Mooniswap.balance0 Mooniswap.balance1 Mooniswap.token0 Mooniswap.token1].
  change (Mooniswap.reserves_map (moon_pool t0 t1 a b gr)) with (dict2 t0 a t1 b).
  rewrite MooniswapFacts.moon_get_amounts_eq by assumption.
  rewrite E1. cbn [bind]. rewrite E2. cbn [bind]. rewrite E3. cbn [bind].
  unfold Wad.gt. destruct (Z.ltb_spec a n1); [lia|].
  cbn [Mooniswap.first_token_amount_delta Mooniswap.second_token_amount_delta].
  destruct (Wad.truediv a b) as [price|]; [|discriminate]. cbn [bind].
  destruct (Mooniswap.price_delta mp price) as [delta|]; [|discriminate].
  cbn [bind]. unfold Mooniswap.swap.
  destruct (PyFloat.gt_int delta tol).
  - intros [= <-] S. exfalso.
    destruct (N.eqb t0 zero_address); cbn in S; congruence.
  - destruct ((delta <? 0) && PyFloat.gt_int (PyFloat.abs delta) tol);
      [|discriminate].
    intros [= <-] _. destruct (N.eqb t1 zero_address); split; reflexivity.
Qed.

Lemma sell_b_amount_witness :
  let a := 1000 * 10 ^ 18 in
  let b := 2000 * 10 ^ 18 in
  let mp := 4 * 10 ^ 17 in
  exists new_a new_b q,
    Wad.sqrt (Wad.mul (Wad.mul a b) mp) = Return new_a /\
    Wad.truediv (Wad.mul a b) mp = Return q /\
    Wad.sqrt q = Return new_b /\
    (new_a <= a ->
     forall tol t,
       Mooniswap.set_price (moon_pool 1%N 2%N a b (fun _ _ x => x))
         mp 1%N 2%N tol = Return (Some t) ->
       Mooniswap.src t = 2%N ->
       Mooniswap.dst t = 1%N /\ Mooniswap.amount t = new_b - b).
Proof.
  cbv zeta.
  apply (sell_b_amount 1%N 2%N (1000 * 10 ^ 18) (2000 * 10 ^ 18)
           (4 * 10 ^ 17) (fun _ _ x => x)).
  - discriminate.
  - split; reflexivity.
  - split; reflexivity.
  - split; reflexivity.
Defined.

(** C2 as stated fails on the sign: for reserves [(1000, 2000)], market
    price [0.4] and tolerance [5] the target [new_a] is below [a], the trade
    sells B for A, and its input amount is [new_b - b], not [b - new_b]. *)
Lemma sell_b_amount_counterexample :
  let a := 1000 * 10 ^ 18 in
  let b := 2000 * 10 ^ 18 in
  let mp := 4 * 10 ^ 17 in
  let new_a := 894427190999915900000 in
  let new_b := 2236067977499790000000 in
  Wad.sqrt (Wad.mul (Wad.mul a b) mp) = Return new_a /\
  (exists q, Wad.truediv (Wad.mul a b) mp = Return q /\
             Wad.sqrt q = Return new_b) /\
  new_a <= a /\
  (exists t,
     Mooniswap.set_price (moon_pool 1%N 2%N a b (fun _ _ x => x))
       mp 1%N 2%N 5 = Return (Some t) /\
     Mooniswap.src t = 2%N /\ Mooniswap.dst t = 1%N /\
     Mooniswap.amount t = new_b - b /\
     Mooniswap.amount t <> b - new_b).
Proof.
  cbv zeta. split; [vm_compute; reflexivity|].
  split; [exists (5000000 * 10 ^ 18); split; vm_compute; reflexivity|].
  split; [vm_compute; discriminate|].
  eexists. split; [vm_compute; reflexivity|].
  split; [vm_compute; reflexivity|].
  split; [vm_compute; reflexivity|].
  split; [vm_compute; reflexivity|].
  vm_compute. discriminate.
Qed.







(** C10 (as amended).  The two derivations agree up to sign: they return or
    raise together, the absolute value of Uniswap's [exact_value] is
    Mooniswap's [first_token_amount_delta], and the absolute value of
    Uniswap's [limit] is the absolute value of Mooniswap's
    [second_token_amount_delta] (that delta itself whenever it is not
    negative). *)
Theorem derivations_agree (t0 t1 : Address) (a b mp : Z) :
  t0 <> t1 ->
  match Mooniswap._get_amounts mp t0 t1 (dict2 t0 a t1 b),
        UniswapV2._get_amounts mp a b with
  | Return r, Return u =>
      Wad.abs (UniswapV2.exact_value u) = Mooniswap.first_token_amount_delta r /\
      Wad.abs (UniswapV2.limit u)
        = Wad.abs (Mooniswap.second_token_amount_delta r) /\
      (0 <= Mooniswap.second_token_amount_delta r ->
       Wad.abs (UniswapV2.limit u) = Mooniswap.second_token_amount_delta r)
  | Raise e, Raise e' => e = e'
  | _, _ => False
  end.
Proof.
  intros Hd.
  rewrite MooniswapFacts.moon_get_amounts_eq by assumption.
  rewrite UniswapFacts.uni_get_amounts_eq.
  destruct (Wad.sqrt (Wad.mul (Wad.mul a b) mp)) as [n1|]; [|reflexivity].
  cbn [bind].
  destruct (Wad.truediv (Wad.mul a b) mp) as [q|]; [|reflexivity].
  cbn [bind].
  destruct (Wad.sqrt q) as [n2|]; [|reflexivity].
  cbn [bind]. unfold Wad.gt, Wad.sub, Wad.abs.
  cbn [UniswapV2.exact_value UniswapV2.limit].
  destruct (Z.ltb_spec a n1);
    cbn [Mooniswap.first_token_amount_delta Mooniswap.second_token_amount_delta];
    repeat split; lia.
Qed.

Lemma derivations_agree_witness :
  match Mooniswap._get_amounts (11 * 10 ^ 17) 1%N 2%N
          (dict2 1%N (1000 * 10 ^ 18) 2%N (1000 * 10 ^ 18)),
        UniswapV2._get_amounts (11 * 10 ^ 17) (1000 * 10 ^ 18) (1000 * 10 ^ 18)
  with
  | Return r, Return u =>
      Wad.abs (UniswapV2.exact_value u) = Mooniswap.first_token_amount_delta r /\
      Wad.abs (UniswapV2.limit u)
        = Wad.abs (Mooniswap.second_token_amount_delta r) /\
      (0 <= Mooniswap.second_token_amount_delta r ->
       Wad.abs (UniswapV2.limit u) = Mooniswap.second_token_amount_delta r)
  | Raise e, Raise e' => e = e'
  | _, _ => False
  end.
Proof.
  apply (derivations_agree 1%N 2%N (1000 * 10 ^ 18) (1000 * 10 ^ 18)
           (11 * 10 ^ 17)).
  discriminate.
Defined.

(** C10 as stated fails where rounding puts both targets on the same side of
    the reserves: for reserves [a = b = 1.234567890123456789] and market
    price [1.0] both targets are [1.2345678901234567], Mooniswap's second
    delta is [-89] and the absolute value of Uniswap's [limit] is [89]. *)
Lemma derivations_agree_counterexample :
  let a := 1234567890123456789 in
  let mp := 10 ^ 18 in
  0 < a /\ 0 < mp /\
  Mooniswap._get_amounts mp 1%N 2%N (dict2 1%N a 2%N a)
  = Return {| Mooniswap.first_token_amount_delta := 89;
              Mooniswap.second_token_amount_delta := -89;
              Mooniswap.map := dict2 1%N 89 2%N (-89) |} /\
  UniswapV2._get_amounts mp a a
  = Return {| UniswapV2.exact_value := 89; UniswapV2.limit := -89 |} /\
  Wad.abs (-89) <> -89.
Proof.
  cbv zeta.
  split; [vm_compute; reflexivity|].
  split; [vm_compute; reflexivity|].
  split; [vm_compute; reflexivity|].
  split; [vm_compute; reflexivity|].
  vm_compute. discriminate.
Qed.

(** C9 (as amended).  Monotonicity, not strict: with the reserves held
    fixed, of two Mooniswap trades emitted on the same side the one for the
    price farther from the pool price (the larger [|delta_percent|]) pays in
    at least as much, provided the nearer price's target [new_a] lies on the
    trade's side of the reserve ([new_a > a] when selling A, [new_a <= a]
    when selling B).  Nearby prices can give equal amounts. *)
Theorem amount_monotone
    (t0 t1 : Address) (a b mp1 mp2 tol n1 : Z)
    (gr : Address -> Address -> Z -> Z) (s1 s2 : Mooniswap.Transact) :
  t0 <> t1 -> 0 < a -> 0 < b -> 0 < mp1 -> 0 < mp2 ->
  Wad.sqrt (Wad.mul (Wad.mul a b) mp1) = Return n1 ->
  Mooniswap.set_price (moon_pool t0 t1 a b gr) mp1 t0 t1 tol = Return (Some s1) ->
  Mooniswap.set_price (moon_pool t0 t1 a b gr) mp2 t0 t1 tol = Return (Some s2) ->
  (Mooniswap.src s1 = t0 -> Mooniswap.src s2 = t0 -> mp1 <= mp2 -> a < n1 ->
   Mooniswap.amount s1 <= Mooniswap.amount s2) /\
  (Mooniswap.src s1 = t1 -> Mooniswap.src s2 = t1 -> mp2 <= mp1 -> n1 <= a ->
   Mooniswap.amount s1 <= Mooniswap.amount s2).
Proof.
  intros Hd Ha Hb Hm1 Hm2 E1 S1 S2.
  destruct (MoonTrade.emitted_trade _ _ _ _ _ _ _ _ Hd S1)
    as (na & q & nb & A1 & Q1 & B1 & D1).
  destruct (MoonTrade.emitted_trade _ _ _ _ _ _ _ _ Hd S2)
    as (na' & q' & nb' & A2 & Q2 & B2 & D2).
  rewrite E1 in A1. injection A1 as <-.
  pose proof (WadFacts.mul_nonneg a b ltac:(lia) ltac:(lia)) as K.
  pose proof WadFacts.WAD_pos as HW.
  rewrite WadFacts.truediv_pos in Q1, Q2 by lia.
  injection Q1 as <-. injection Q2 as <-.
  unfold Wad.gt in *. split.
  - intros X1 X2 Hle Hgt.
    destruct D1 as [(_ & _ & M1)|(C & _)]; [|congruence].
    destruct D2 as [(_ & _ & M2)|(C & _)]; [|congruence].
    assert (n1 <= na').
    { apply (SqrtFacts.wad_sqrt_mono (Wad.mul (Wad.mul a b) mp1)
               (Wad.mul (Wad.mul a b) mp2)); try assumption.
      - apply WadFacts.mul_nonneg; lia.
      - apply WadFacts.mul_mono_r; lia. }
    destruct (Z.ltb_spec a n1); [|lia]. destruct (Z.ltb_spec a na'); lia.
  - intros X1 X2 Hle Hna.
    destruct D1 as [(C & _)|(_ & _ & M1)]; [congruence|].
    destruct D2 as [(C & _)|(_ & _ & M2)]; [congruence|].
    assert (na' <= n1).
    { apply (SqrtFacts.wad_sqrt_mono (Wad.mul (Wad.mul a b) mp2)
               (Wad.mul (Wad.mul a b) mp1)); try assumption.
      - apply WadFacts.mul_nonneg; lia.
      - apply WadFacts.mul_mono_r; lia. }
    assert (nb <= nb').
    { refine (SqrtFacts.wad_sqrt_mono _ _ _ _ _ _ B1 B2).
      - apply Z.div_pos; nia.
      - apply Z.div_le_compat_l; [nia|lia]. }
    destruct (Z.ltb_spec a n1); [lia|]. destruct (Z.ltb_spec a na'); lia.
Qed.

Lemma amount_monotone_witness :
  let a := 1000 * 10 ^ 18 in
  let pool := moon_pool 1%N 2%N a a (fun (_ _ : Address) (x : Z) => x) in
  let s1 := {| Mooniswap.src := 1%N; Mooniswap.dst := 2%N;
               Mooniswap.amount := 48808848170151600000;
               Mooniswap.min_return := 48808848170151600000;
               Mooniswap.referral := 0%N; Mooniswap.value := None |} in
  let s2 := {| Mooniswap.src := 1%N; Mooniswap.dst := 2%N;
               Mooniswap.amount := 95445115010332300000;
               Mooniswap.min_return := 95445115010332300000;
               Mooniswap.referral := 0%N; Mooniswap.value := None |} in
  Mooniswap.set_price pool (11 * 10 ^ 17) 1%N 2%N 1 = Return (Some s1) /\
  Mooniswap.set_price pool (12 * 10 ^ 17) 1%N 2%N 1 = Return (Some s2) /\
  Mooniswap.amount s1 <= Mooniswap.amount s2.
Proof.
  cbv zeta.
  assert (E1 : Mooniswap.set_price
                 (moon_pool 1%N 2%N (1000 * 10 ^ 18) (1000 * 10 ^ 18)
                    (fun _ _ x => x)) (11 * 10 ^ 17) 1%N 2%N 1
               = Return (Some
                   {| Mooniswap.src := 1%N; Mooniswap.dst := 2%N;
                      Mooniswap.amount := 48808848170151600000;
                      Mooniswap.min_return := 48808848170151600000;
                      Mooniswap.referral := 0%N; Mooniswap.value := None |}))
    by (vm_compute; reflexivity).
  assert (E2 : Mooniswap.set_price
                 (moon_pool 1%N 2%N (1000 * 10 ^ 18) (1000 * 10 ^ 18)
                    (fun _ _ x => x)) (12 * 10 ^ 17) 1%N 2%N 1
               = Return (Some
                   {| Mooniswap.src := 1%N; Mooniswap.dst := 2%N;
                      Mooniswap.amount := 95445115010332300000;
                      Mooniswap.min_return := 95445115010332300000;
                      Mooniswap.referral := 0%N; Mooniswap.value := None |}))
    by (vm_compute; reflexivity).
  split; [exact E1|]. split; [exact E2|].
  refine (proj1 (amount_monotone 1%N 2%N (1000 * 10 ^ 18) (1000 * 10 ^ 18)
            (11 * 10 ^ 17) (12 * 10 ^ 17) 1 1048808848170151600000
            (fun _ _ x => x) _ _ _ _ _ _ _ _ E1 E2) _ _ _ _).
  - discriminate.
  - reflexivity.
  - reflexivity.
  - reflexivity.
  - reflexivity.
  - vm_compute. reflexivity.
  - reflexivity.
  - reflexivity.
  - vm_compute. discriminate.
  - reflexivity.
Defined.

(** C9 as stated fails on strictness: with reserves [(1000, 1000)] and
    tolerance [1], the prices [1.1] and [1.1000000000000001] both lie above
    the band, the second has the larger delta (exactly, and as computed:
    [10.000000000000014] against [10.0]), and both trades pay in the same
    non-zero amount. *)
Lemma amount_monotone_counterexample :
  let a := 1000 * 10 ^ 18 in
  let pool := moon_pool 1%N 2%N a a (fun (_ _ : Address) (x : Z) => x) in
  let mp1 := 11 * 10 ^ 17 in
  let mp2 := 11 * 10 ^ 17 + 100 in
  let s := {| Mooniswap.src := 1%N; Mooniswap.dst := 2%N;
              Mooniswap.amount := 48808848170151600000;
              Mooniswap.min_return := 48808848170151600000;
              Mooniswap.referral := 0%N; Mooniswap.value := None |} in
  Wad.truediv a a = Return (10 ^ 18) /\
  mp1 < mp2 /\
  Mooniswap.price_delta mp1 (10 ^ 18) = Return (10 * 2 ^ 1074) /\
  Mooniswap.price_delta mp2 (10 ^ 18) = Return (10 * 2 ^ 1074 + 2 ^ 1028) /\
  Mooniswap.set_price pool mp1 1%N 2%N 1 = Return (Some s) /\
  Mooniswap.set_price pool mp2 1%N 2%N 1 = Return (Some s) /\
  0 < Mooniswap.amount s.
Proof.
  cbv zeta.
  split; [vm_compute; reflexivity|].
  split; [vm_compute; reflexivity|].
  split; [vm_compute; reflexivity|].
  split; [vm_compute; reflexivity|].
  split; [vm_compute; reflexivity|].
  split; vm_compute; reflexivity.
Qed.

(** C7 (as amended).  The square roots are taken in binary64 floating
    point, not at full precision: for 256-bit amounts each computed target
    [v] approximates the exact integer square root [e] of the unscaled
    product (rescaled) with [2^50 * v^2 <= (2^50 + 1) * (e + 1)^2] and
    [(2^50 - 1) * e^2 <= 2^50 * (v + 1)^2], a relative error of about
    [2^-51], and need not equal it.  Both market makers use these targets. *)
Theorem target_reserves_precision (t0 t1 : Address) (a b mp : Z) :
  t0 <> t1 -> 0 < a < 2 ^ 256 -> 0 < b < 2 ^ 256 -> 0 < mp < 2 ^ 256 ->
  let k := Wad.mul a b in
  exists new_a new_b q,
    Wad.truediv k mp = Return q /\
    Mooniswap.new_reserved mp t0 t1 (dict2 t0 a t1 b)
      = Return (dict2 t0 new_a t1 new_b) /\
    UniswapV2._get_amounts mp a b
      = Return {| UniswapV2.exact_value := a - new_a;
                  UniswapV2.limit := new_b - b |} /\
    (2 ^ 50 * new_a ^ 2 <= (2 ^ 50 + 1) * (exact_sqrt (Wad.mul k mp) + 1) ^ 2 /\
     (2 ^ 50 - 1) * exact_sqrt (Wad.mul k mp) ^ 2 <= 2 ^ 50 * (new_a + 1) ^ 2) /\
    (2 ^ 50 * new_b ^ 2 <= (2 ^ 50 + 1) * (exact_sqrt q + 1) ^ 2 /\
     (2 ^ 50 - 1) * exact_sqrt q ^ 2 <= 2 ^ 50 * (new_b + 1) ^ 2).
Proof.
  intros Hd Ha Hb Hmp k.
  destruct (WadFacts.targets_total a b mp Ha Hb Hmp)
    as (n1 & n2 & E1 & E2 & E3).
  destruct (PrecisionFacts.targets_range a b mp Ha Hb Hmp) as [R1 R2].
  exists n1, n2, (Wad.mul a b * Wad.WAD / mp). subst k.
  split; [exact E2|].
  split.
  { rewrite MooniswapFacts.moon_new_reserved_eq by assumption.
    rewrite E1. cbn [bind]. rewrite E2. cbn [bind]. rewrite E3. reflexivity. }
  split.
  { rewrite UniswapFacts.uni_get_amounts_eq.
    rewrite E1. cbn [bind]. rewrite E2. cbn [bind]. rewrite E3. reflexivity. }
  split.
  - exact (PrecisionFacts.wad_sqrt_close _ _ R1 E1).
  - exact (PrecisionFacts.wad_sqrt_close _ _ R2 E3).
Qed.

Lemma target_reserves_precision_witness :
  exists new_a new_b q,
    Wad.truediv (Wad.mul (1000 * 10 ^ 18) (1000 * 10 ^ 18)) (11 * 10 ^ 17)
      = Return q /\
    Mooniswap.new_reserved (11 * 10 ^ 17) 1%N 2%N
        (dict2 1%N (1000 * 10 ^ 18) 2%N (1000 * 10 ^ 18))
      = Return (dict2 1%N new_a 2%N new_b) /\
    UniswapV2._get_amounts (11 * 10 ^ 17) (1000 * 10 ^ 18) (1000 * 10 ^ 18)
      = Return {| UniswapV2.exact_value := 1000 * 10 ^ 18 - new_a;
                  UniswapV2.limit := new_b - 1000 * 10 ^ 18 |} /\
    (2 ^ 50 * new_a ^ 2
       <= (2 ^ 50 + 1)
          * (exact_sqrt (Wad.mul (Wad.mul (1000 * 10 ^ 18) (1000 * 10 ^ 18))
                           (11 * 10 ^ 17)) + 1) ^ 2 /\
     (2 ^ 50 - 1)
       * exact_sqrt (Wad.mul (Wad.mul (1000 * 10 ^ 18) (1000 * 10 ^ 18))
                       (11 * 10 ^ 17)) ^ 2
       <= 2 ^ 50 * (new_a + 1) ^ 2) /\
    (2 ^ 50 * new_b ^ 2 <= (2 ^ 50 + 1) * (exact_sqrt q + 1) ^ 2 /\
     (2 ^ 50 - 1) * exact_sqrt q ^ 2 <= 2 ^ 50 * (new_b + 1) ^ 2).
Proof.
  apply (target_reserves_precision 1%N 2%N (1000 * 10 ^ 18) (1000 * 10 ^ 18)
           (11 * 10 ^ 17)).
  - discriminate.
  - split; [reflexivity|]. apply Z.ltb_lt. vm_compute. reflexivity.
  - split; [reflexivity|]. apply Z.ltb_lt. vm_compute. reflexivity.
  - split; [reflexivity|]. apply Z.ltb_lt. vm_compute. reflexivity.
Defined.

(** C7 as stated fails: with reserves of 1000 and 1000 tokens and a market
    price of 1.1, the computed target for token A differs from the exact
    integer square root from its seventeenth digit on. *)
Lemma target_reserves_precision_counterexample :
  let a := 1000 * 10 ^ 18 in
  let b := 1000 * 10 ^ 18 in
  let mp := 11 * 10 ^ 17 in
  let k := Wad.mul a b in
  exists q,
    Wad.truediv k mp = Return q /\
    Mooniswap.new_reserved mp 1%N 2%N (dict2 1%N a 2%N b)
      = Return (dict2 1%N 1048808848170151600000 2%N 953462589245592300000) /\
    UniswapV2._get_amounts mp a b
      = Return {| UniswapV2.exact_value := a - 1048808848170151600000;
                  UniswapV2.limit := 953462589245592300000 - b |} /\
    exact_sqrt (Wad.mul k mp) = 1048808848170151546991 /\
    exact_sqrt (Wad.mul k mp) <> 1048808848170151600000.
Proof.
  cbv zeta. exists (Wad.mul (1000 * 10 ^ 18) (1000 * 10 ^ 18) * Wad.WAD / (11 * 10 ^ 17)).
  split; [vm_compute; reflexivity|].
  split; [vm_compute; reflexivity|].
  split; [vm_compute; reflexivity|].
  split; [vm_compute; reflexivity|].
  vm_compute. discriminate.
Qed.

(** * Facts about the error cases and the router *)

Module ClientFacts.
Import PyFloat PyFloatFacts WadFacts DictFacts.

(** Looking up a dictionary raises nothing but [KeyError]. *)
Lemma getitem_raise (d : gmap N Z) (k : Address) (e : exn) :
  getitem d k = Raise e -> e = KeyError.
Proof. unfold getitem. destruct (d !! k); congruence. Qed.

Lemma getitem_dict2_other (k1 k2 k : Address) (v1 v2 : Z) :
  k <> k1 -> k <> k2 -> getitem (dict2 k1 v1 k2 v2) k = Raise KeyError.
Proof.
  intros H1 H2. unfold getitem, dict2.
  rewrite !lookup_insert_ne by congruence. rewrite lookup_empty. reflexivity.
Qed.

(** A dictionary display of two distinct keys does not depend on their
    order. *)
Lemma dict2_comm (k1 k2 : Address) (v1 v2 : Z) :
  k1 <> k2 -> dict2 k1 v1 k2 v2 = dict2 k2 v2 k1 v1.
Proof. intros H. unfold dict2. apply insert_insert_ne. congruence. Qed.

(** [Wad.from_number(0.5)]. *)
Lemma from_number_half :
  Wad.from_number UniswapRouter.half = 5 * 10 ^ 17.
Proof. vm_compute. reflexivity. Qed.

(** [Wad.from_number(0.5) * amount] is half the amount, truncated. *)
Lemma mul_half (amount : Z) :
  Wad.mul (Wad.from_number UniswapRouter.half) amount = Z.quot amount 2.
Proof.
  rewrite from_number_half. unfold Wad.mul. rewrite WAD_eq.
  replace (10 ^ 18) with (5 * 10 ^ 17 * 2) by reflexivity.
  apply Z.quot_mul_cancel_l; discriminate.
Qed.

End ClientFacts.

Module PriceFacts.
Import PyFloat PyFloatFacts WadFacts DictFacts.

(** The pool price of a pool that is not too lopsided. *)
Lemma pool_price (a b : Z) :
  0 < a -> 0 < b <= a * 10 ^ 18 ->
  Wad.truediv a b = Return (a * Wad.WAD / b) /\ 1 <= a * Wad.WAD / b.
Proof.
  intros Ha Hb. split; [apply truediv_pos; lia|].
  rewrite WAD_eq. apply Z.div_le_lower_bound; lia.
Qed.

(** The percentage is a float whenever the ratio is below [2^1000]. *)
Lemma price_delta_total (mp price : Z) :
  0 <= mp -> 0 < price -> mp * 100 <= 2 ^ 1000 * price ->
  Mooniswap.price_delta mp price
    = Return (rnd (rnd (mp * 100 * one) price - 100 * one) 1).
Proof.
  intros Hm Hp Hb. rewrite DeltaFacts.price_delta_unfold by assumption.
  destruct (of_ratio_small (mp * 100) price ltac:(lia) Hp Hb) as [-> _].
  reflexivity.
Qed.

(** A price of zero is [-100] percent. *)
Lemma price_delta_zero (price : Z) :
  0 < price -> Mooniswap.price_delta 0 price = Return (- (100 * one)).
Proof.
  intros Hp. pose proof one_pos as Ho.
  rewrite price_delta_total by (try lia; assert (0 < 2 ^ 1000) by (apply Z.pow_pos_nonneg; lia); nia).
  rewrite Z.mul_0_l, rnd_0 by assumption.
  rewrite Z.sub_0_l, rnd_opp by lia.
  replace (100 * one) with (100 * one * 1) at 1 by ring.
  rewrite rnd_representable; [reflexivity| |lia].
  apply representable_int. split; [lia|].
  apply Z.leb_le. vm_compute. reflexivity.
Qed.

Lemma sqrt_zero : Wad.sqrt 0 = Return 0.
Proof. vm_compute. reflexivity. Qed.

Lemma mul_zero_r (k : Z) : Wad.mul k 0 = 0.
Proof. unfold Wad.mul. rewrite Z.mul_0_r. apply Z.quot_0_l. pose proof WAD_pos. lia. Qed.

(** The float of a negative [Wad] is negative. *)
Lemma to_float_neg (w : Z) :
  - 2 ^ 1000 <= w < 0 ->
  exists x, Wad.to_float w = Return x /\ x < 0.
Proof.
  intros [Hl Hu]. pose proof one_pos as Ho. pose proof WAD_pos as HW.
  unfold Wad.to_float, truediv.
  destruct (Z.eqb_spec Wad.WAD 0); [lia|].
  destruct (Z.ltb_spec Wad.WAD 0); [lia|].
  unfold of_ratio.
  replace (w * one) with (- (- w * one)) by ring.
  rewrite rnd_opp by assumption.
  assert (R1 : representable (2 ^ 1014)).
  { exists 1, 1014. split; [|split]; [split; [lia|apply Z.pow_lt_mono_r with (b := 0); lia] | lia | ring]. }
  assert (L : 2 ^ 1014 <= rnd (- w * one) Wad.WAD).
  { apply rnd_ge; [assumption|assumption|].
    apply Z.le_trans with (m := 2 ^ 1014 * 2 ^ 60).
    - apply Z.mul_le_mono_nonneg_l; [apply Z.pow_nonneg; lia|].
      rewrite WAD_eq. apply Z.leb_le. vm_compute. reflexivity.
    - rewrite <- Z.pow_add_r by lia. change (1014 + 60) with 1074.
      rewrite one_eq in *. nia. }
  assert (R2 : representable (2 ^ 1000 * one)).
  { exists 1, 2074. split; [|split]; [split; [lia|apply Z.pow_lt_mono_r with (b := 0); lia] | lia |].
    rewrite one_eq, <- Z.pow_add_r by lia. reflexivity. }
  assert (U : rnd (- w * one) Wad.WAD <= 2 ^ 1000 * one).
  { apply rnd_le; [assumption|assumption|]. nia. }
  assert (Hh : 2 ^ 1000 * one < huge).
  { rewrite huge_one. apply Z.mul_lt_mono_pos_r; [assumption|].
    apply Z.pow_lt_mono_r; lia. }
  assert (P : 0 < 2 ^ 1014) by (apply Z.pow_pos_nonneg; lia).
  destruct (Z.leb_spec huge (Z.abs (- rnd (- w * one) Wad.WAD))); [lia|].
  eexists. split; [reflexivity|lia].
Qed.

(** [math.sqrt] of a negative [Wad] is a domain error. *)
Lemma sqrt_neg (w : Z) :
  - 2 ^ 1000 <= w < 0 -> Wad.sqrt w = Raise ValueError.
Proof.
  intros H. destruct (to_float_neg w H) as (x & E & Hx).
  unfold Wad.sqrt. rewrite E. cbn [bind]. unfold sqrt.
  destruct (Z.ltb_spec x 0); [reflexivity|lia].
Qed.

End PriceFacts.

(** Unfolds one [let!] of an evaluation that returned. *)
Ltac returned :=
  match goal with
  | |- bind ?r _ = Return _ -> _ =>
      let E := fresh "E" in
      destruct r eqn:E; cbn [bind]; [|discriminate]
  | |- (if ?b then _ else _) = Return _ -> _ =>
      let E := fresh "B" in destruct b eqn:E
  end.

(** * Further properties of the market makers and the router *)

(** X1.  Every trade the Mooniswap market maker emits, whatever the pool
    and the tokens asked for, sells one of the two tokens for the other,
    accepts no less than the pool's own quote for the amount sold, names no
    referral, and carries the amount as ether exactly when the token sold
    is the native asset. *)
Theorem moon_trade_is_quoted
    (c : Mooniswap.Contract) (mp tol : Z) (f s : Address)
    (t : Mooniswap.Transact) :
  Mooniswap.set_price c mp f s tol = Return (Some t) ->
  ((Mooniswap.src t = f /\ Mooniswap.dst t = s) \/
   (Mooniswap.src t = s /\ Mooniswap.dst t = f)) /\
  Mooniswap.min_return t
    = Mooniswap.getReturn c (Mooniswap.src t) (Mooniswap.dst t)
        (Mooniswap.amount t) /\
  Mooniswap.referral t = zero_address /\
  Mooniswap.value t
    = (if N.eqb (Mooniswap.src t) zero_address
       then Some (Mooniswap.amount t) else None).
Proof.
  unfold Mooniswap.set_price. cbv zeta.
  repeat returned; try discriminate; intros [= <-];
    unfold Mooniswap.swap, Mooniswap.get_return.
  - destruct (N.eqb f zero_address) eqn:Z; cbn; rewrite Z; auto 6.
  - destruct (N.eqb s zero_address) eqn:Z; cbn; rewrite Z; auto 6.
Qed.

Lemma moon_trade_is_quoted_witness :
  let t := Mooniswap.swap 0%N 2%N 48808848170151600000 48808848170151600000
             None in
  ((Mooniswap.src t = 0%N /\ Mooniswap.dst t = 2%N) \/
   (Mooniswap.src t = 2%N /\ Mooniswap.dst t = 0%N)) /\
  Mooniswap.min_return t
    = (fun (_ _ : Address) (x : Z) => x) (Mooniswap.src t) (Mooniswap.dst t)
        (Mooniswap.amount t) /\
  Mooniswap.referral t = zero_address /\
  Mooniswap.value t
    = (if N.eqb (Mooniswap.src t) zero_address
       then Some (Mooniswap.amount t) else None).
Proof.
  cbv zeta.
  apply (moon_trade_is_quoted
           (moon_pool 0%N 2%N (1000 * 10 ^ 18) (1000 * 10 ^ 18)
              (fun _ _ x => x))
           (11 * 10 ^ 17) 1 0%N 2%N).
  vm_compute. reflexivity.
Defined.

(** X2.  Every trade the Uniswap market maker emits goes to the router's
    own account and is bounded by the router's quote for its exact amount:
    selling the first token it is an exact-input swap along
    [first, second] whose least output is the last quoted amount; selling
    the second token it is an exact-output swap along [second, first]
    whose greatest input is the first quoted amount. *)
Theorem uni_trade_is_quoted
    (c : UniswapV2.Contract) (mp tol : Z) (f s : Address)
    (t : UniswapV2.Transact) :
  UniswapV2.set_price c mp f s tol = Return (Some t) ->
  UniswapV2.recipient t = UniswapV2.account_address c /\
  ((UniswapV2.path t = [f; s] /\
    UniswapV2.last_item
      (UniswapV2.getAmountsOut c (UniswapV2.exact t) [f; s])
      = Return (UniswapV2.bound t) /\
    In (UniswapV2.method t)
       [UniswapV2.swapExactTokensForTokens; UniswapV2.swapExactETHForTokens;
        UniswapV2.swapExactTokensForETH]) \/
   (UniswapV2.path t = [s; f] /\
    UniswapV2.first_item
      (UniswapV2.getAmountsIn c (UniswapV2.exact t) [s; f])
      = Return (UniswapV2.bound t) /\
    In (UniswapV2.method t)
       [UniswapV2.swapTokensForExactTokens; UniswapV2.swapTokensForExactETH;
        UniswapV2.swapETHForExactTokens])).
Proof.
  unfold UniswapV2.set_price. cbv zeta.
  repeat returned; try discriminate; intros [= <-];
    unfold UniswapV2.swap_from_exact_amount, UniswapV2.swap_to_exact_amount;
    cbn [UniswapV2.recipient UniswapV2.path UniswapV2.exact UniswapV2.bound
         UniswapV2.method];
    (split; [reflexivity|]).
  - left. split; [reflexivity|]. split; [assumption|].
    destruct (N.eqb f zero_address); [|destruct (N.eqb s zero_address)];
      cbn; auto.
  - right. split; [reflexivity|]. split; [assumption|].
    destruct (N.eqb s zero_address); [|destruct (N.eqb f zero_address)];
      cbn; auto.
Qed.

Lemma uni_trade_is_quoted_witness :
  let c := uni_pool 1%N 2%N (1000 * 10 ^ 18) (1000 * 10 ^ 18) 7%N
             (fun x _ => [x; x - 1]) (fun x _ => [x + 1; x]) in
  let t := UniswapV2.swap_from_exact_amount c 48808848170151600000
             48808848170151599999 1%N 2%N in
  UniswapV2.recipient t = UniswapV2.account_address c /\
  ((UniswapV2.path t = [1%N; 2%N] /\
    UniswapV2.last_item
      (UniswapV2.getAmountsOut c (UniswapV2.exact t) [1%N; 2%N])
      = Return (UniswapV2.bound t) /\
    In (UniswapV2.method t)
       [UniswapV2.swapExactTokensForTokens; UniswapV2.swapExactETHForTokens;
        UniswapV2.swapExactTokensForETH]) \/
   (UniswapV2.path t = [2%N; 1%N] /\
    UniswapV2.first_item
      (UniswapV2.getAmountsIn c (UniswapV2.exact t) [2%N; 1%N])
      = Return (UniswapV2.bound t) /\
    In (UniswapV2.method t)
       [UniswapV2.swapTokensForExactTokens; UniswapV2.swapTokensForExactETH;
        UniswapV2.swapETHForExactTokens])).
Proof.
  cbv zeta.
  apply (uni_trade_is_quoted
           (uni_pool 1%N 2%N (1000 * 10 ^ 18) (1000 * 10 ^ 18) 7%N
              (fun x _ => [x; x - 1]) (fun x _ => [x + 1; x]))
           (11 * 10 ^ 17) 1 1%N 2%N).
  vm_compute. reflexivity.
Defined.

(** X3.  Asking either market maker about a token the pool does not hold
    raises [KeyError], whatever the price and the tolerance. *)
Theorem unknown_token_raises
    (t0 t1 f s : Address) (a b mp tol : Z)
    (gr : Address -> Address -> Z -> Z) (acct : Address)
    (gao gai : Z -> list Address -> list Z) :
  (f <> t0 /\ f <> t1) \/ (s <> t0 /\ s <> t1) ->
  Mooniswap.set_price (moon_pool t0 t1 a b gr) mp f s tol = Raise KeyError /\
  UniswapV2.set_price (uni_pool t0 t1 a b acct gao gai) mp f s tol
    = Raise KeyError.
Proof.
  intros H.
  assert (K : forall A (k : Z -> Z -> result A),
             (let! r1 := getitem (dict2 t0 a t1 b) f in
              let! r2 := getitem (dict2 t0 a t1 b) s in k r1 r2)
             = Raise KeyError).
  { intros A k. destruct H as [[H0 H1]|[H0 H1]].
    - rewrite ClientFacts.getitem_dict2_other by assumption. reflexivity.
    - destruct (getitem (dict2 t0 a t1 b) f) as [r1|e] eqn:E.
      + cbn [bind]. rewrite ClientFacts.getitem_dict2_other by assumption.
        reflexivity.
      + cbn [bind]. rewrite (ClientFacts.getitem_raise _ _ _ E). reflexivity. }
  split.
  - unfold Mooniswap.set_price, Mooniswap.reserves_map. cbv zeta.
    cbn [Mooniswap.token0 Mooniswap.token1 Mooniswap.balance0
         Mooniswap.balance1]. apply K.
  - unfold UniswapV2.set_price, UniswapV2.reserves_map. cbv zeta.
    cbn [UniswapV2.token0 UniswapV2.token1 UniswapV2.reserve0
         UniswapV2.reserve1]. apply K.
Qed.

Lemma unknown_token_raises_witness :
  Mooniswap.set_price
    (moon_pool 1%N 2%N (1000 * 10 ^ 18) (1000 * 10 ^ 18) (fun _ _ x => x))
    (11 * 10 ^ 17) 1%N 3%N 1 = Raise KeyError /\
  UniswapV2.set_price
    (uni_pool 1%N 2%N (1000 * 10 ^ 18) (1000 * 10 ^ 18) 7%N
       (fun x _ => [x; x]) (fun x _ => [x; x]))
    (11 * 10 ^ 17) 1%N 3%N 1 = Raise KeyError.
Proof.
  apply (unknown_token_raises 1%N 2%N 1%N 3%N).
  right. split; discriminate.
Defined.

(** X4.  A pool so lopsided that its price [a / b] truncates to zero in
    18-digit fixed point ([a * 10^18 < b]) makes both market makers raise
    [ZeroDivisionError], though both reserves are positive. *)
Theorem price_underflow_raises
    (t0 t1 : Address) (a b mp tol : Z)
    (gr : Address -> Address -> Z -> Z) (acct : Address)
    (gao gai : Z -> list Address -> list Z) :
  t0 <> t1 -> 0 < a -> a * 10 ^ 18 < b ->
  Mooniswap.set_price (moon_pool t0 t1 a b gr) mp t0 t1 tol
    = Raise ZeroDivisionError /\
  UniswapV2.set_price (uni_pool t0 t1 a b acct gao gai) mp t0 t1 tol
    = Raise ZeroDivisionError.
Proof.
  intros Hd Ha Hb.
  assert (P : Wad.truediv a b = Return 0).
  { unfold Wad.truediv. destruct (Z.eqb_spec b 0); [lia|].
    rewrite WadFacts.WAD_eq, Z.quot_small by lia. reflexivity. }
  split.
  - rewrite (MooniswapFacts.moon_set_price_eq (moon_pool t0 t1 a b gr) Hd).
    cbn [Mooniswap.balance0 Mooniswap.balance1]. rewrite P. reflexivity.
  - rewrite (UniswapFacts.uni_set_price_eq (uni_pool t0 t1 a b acct gao gai) Hd).
    cbn [UniswapV2.reserve0 UniswapV2.reserve1]. rewrite P. reflexivity.
Qed.

Lemma price_underflow_raises_witness :
  Mooniswap.set_price
    (moon_pool 1%N 2%N 1 (2 * 10 ^ 18) (fun _ _ x => x))
    (10 ^ 18) 1%N 2%N 1 = Raise ZeroDivisionError /\
  UniswapV2.set_price
    (uni_pool 1%N 2%N 1 (2 * 10 ^ 18) 7%N
       (fun x _ => [x; x]) (fun x _ => [x; x]))
    (10 ^ 18) 1%N 2%N 1 = Raise ZeroDivisionError.
Proof.
  apply (price_underflow_raises 1%N 2%N 1 (2 * 10 ^ 18)).
  - discriminate.
  - reflexivity.
  - reflexivity.
Defined.

(** X5.  For 256-bit positive reserves and market price, a pool price of
    at least one unit of the 18th digit and quote functions that answer
    with an amount, neither market maker raises: the evaluation returns a
    trade or nothing. *)
Theorem set_price_returns
    (t0 t1 : Address) (a b mp tol : Z)
    (gr : Address -> Address -> Z -> Z) (acct : Address)
    (gao gai : Z -> list Address -> list Z) :
  t0 <> t1 -> 0 < a < 2 ^ 256 -> 0 < b < 2 ^ 256 -> 0 < mp < 2 ^ 256 ->
  b <= a * 10 ^ 18 ->
  (forall x p, gao x p <> []) -> (forall x p, gai x p <> []) ->
  (exists r,
     Mooniswap.set_price (moon_pool t0 t1 a b gr) mp t0 t1 tol = Return r) /\
  (exists r,
     UniswapV2.set_price (uni_pool t0 t1 a b acct gao gai) mp t0 t1 tol
       = Return r).
Proof.
  intros Hd Ha Hb Hmp Hp Hgao Hgai.
  destruct (PriceFacts.pool_price a b ltac:(lia) ltac:(lia)) as [P P1].
  assert (D : Mooniswap.price_delta mp (a * Wad.WAD / b)
              = Return (PyFloat.rnd
                          (PyFloat.rnd (mp * 100 * PyFloat.one)
                             (a * Wad.WAD / b) - 100 * PyFloat.one) 1)).
  { apply PriceFacts.price_delta_total; [lia|lia|].
    assert (2 ^ 256 * 100 <= 2 ^ 1000 * 1).
    { apply Z.leb_le. vm_compute. reflexivity. }
    assert (0 < 2 ^ 1000) by (apply Z.pow_pos_nonneg; lia). nia. }
  destruct (WadFacts.targets_total a b mp Ha Hb Hmp)
    as (n1 & n2 & E1 & E2 & E3).
  split.
  - rewrite (MooniswapFacts.moon_set_price_eq (moon_pool t0 t1 a b gr) Hd).
    cbn [Mooniswap.balance0 Mooniswap.balance1 Mooniswap.token0
         Mooniswap.token1].
    rewrite P. cbn [bind]. rewrite D. cbn [bind].
    unfold Mooniswap.reserves_map.
    cbn [Mooniswap.balance0 Mooniswap.balance1 Mooniswap.token0
         Mooniswap.token1].
    rewrite (MooniswapFacts.moon_get_amounts_eq t0 t1 Hd a b mp).
    rewrite E1. cbn [bind]. rewrite E2. cbn [bind]. rewrite E3. cbn [bind].
    destruct (PyFloat.gt_int _ tol); [eexists; reflexivity|].
    destruct (_ && _); eexists; reflexivity.
  - rewrite (UniswapFacts.uni_set_price_eq
               (uni_pool t0 t1 a b acct gao gai) Hd).
    cbn [UniswapV2.reserve0 UniswapV2.reserve1 UniswapV2.token0
         UniswapV2.token1 UniswapV2.getAmountsOut UniswapV2.getAmountsIn].
    rewrite P. cbn [bind]. rewrite UniswapFacts.uni_price_delta_eq, D.
    cbn [bind]. rewrite UniswapFacts.uni_get_amounts_eq.
    rewrite E1. cbn [bind]. rewrite E2. cbn [bind]. rewrite E3. cbn [bind].
    cbv zeta.
    destruct (PyFloat.gt_int _ tol).
    + destruct (gao _ [t0; t1]) as [|x l] eqn:G; [exfalso; exact (Hgao _ _ G)|].
      eexists; reflexivity.
    + destruct (_ && _); [|eexists; reflexivity].
      destruct (gai _ [t1; t0]) as [|x l] eqn:G; [exfalso; exact (Hgai _ _ G)|].
      eexists; reflexivity.
Qed.

Lemma set_price_returns_witness :
  (exists r,
     Mooniswap.set_price
       (moon_pool 1%N 2%N (1000 * 10 ^ 18) (900 * 10 ^ 18) (fun _ _ x => x))
       (10 ^ 18) 1%N 2%N 1 = Return r) /\
  (exists r,
     UniswapV2.set_price
       (uni_pool 1%N 2%N (1000 * 10 ^ 18) (900 * 10 ^ 18) 7%N
          (fun x _ => [x; x]) (fun x _ => [x; x]))
       (10 ^ 18) 1%N 2%N 1 = Return r).
Proof.
  apply (set_price_returns 1%N 2%N (1000 * 10 ^ 18) (900 * 10 ^ 18) (10 ^ 18) 1).
  - discriminate.
  - split; [reflexivity|]. apply Z.ltb_lt. vm_compute. reflexivity.
  - split; [reflexivity|]. apply Z.ltb_lt. vm_compute. reflexivity.
  - split; [reflexivity|]. apply Z.ltb_lt. vm_compute. reflexivity.
  - apply Z.leb_le. vm_compute. reflexivity.
  - discriminate.
  - discriminate.
Defined.

(** X6.  A market price of zero is not rejected as such.  It is [-100]
    percent off any pool price: with a tolerance of 100 or more the
    evaluation returns nothing, and below 100 the derivation of the amounts
    divides by the price and raises [ZeroDivisionError]. *)
Theorem zero_price
    (t0 t1 : Address) (a b tol : Z)
    (gr : Address -> Address -> Z -> Z) (acct : Address)
    (gao gai : Z -> list Address -> list Z) :
  t0 <> t1 -> 0 < a -> 0 < b <= a * 10 ^ 18 -> 0 <= tol ->
  Mooniswap.set_price (moon_pool t0 t1 a b gr) 0 t0 t1 tol
    = (if tol <? 100 then Raise ZeroDivisionError else Return None) /\
  UniswapV2.set_price (uni_pool t0 t1 a b acct gao gai) 0 t0 t1 tol
    = (if tol <? 100 then Raise ZeroDivisionError else Return None).
Proof.
  intros Hd Ha Hb Ht. pose proof PyFloatFacts.one_pos as Ho.
  destruct (PriceFacts.pool_price a b Ha Hb) as [P P1].
  pose proof (PriceFacts.price_delta_zero (a * Wad.WAD / b) ltac:(lia)) as D.
  assert (G1 : PyFloat.gt_int (- (100 * PyFloat.one)) tol = false).
  { unfold PyFloat.gt_int. apply Z.ltb_ge. nia. }
  assert (G2 : (- (100 * PyFloat.one) <? 0)
               && PyFloat.gt_int (PyFloat.abs (- (100 * PyFloat.one))) tol
               = (tol <? 100)).
  { unfold PyFloat.gt_int, PyFloat.abs.
    rewrite Z.abs_opp, Z.abs_eq by lia.
    destruct (Z.ltb_spec (- (100 * PyFloat.one)) 0); [|lia].
    cbn [andb].
    destruct (Z.ltb_spec tol 100); destruct (Z.ltb_spec (tol * PyFloat.one) (100 * PyFloat.one));
      try reflexivity; nia. }
  split.
  - rewrite (MooniswapFacts.moon_set_price_eq (moon_pool t0 t1 a b gr) Hd).
    cbn [Mooniswap.balance0 Mooniswap.balance1 Mooniswap.token0
         Mooniswap.token1].
    rewrite P. cbn [bind]. rewrite D. cbn [bind]. rewrite G1, G2.
    destruct (tol <? 100); [|reflexivity].
    unfold Mooniswap.reserves_map.
    cbn [Mooniswap.balance0 Mooniswap.balance1 Mooniswap.token0
         Mooniswap.token1].
    rewrite (MooniswapFacts.moon_get_amounts_eq t0 t1 Hd a b 0).
    rewrite PriceFacts.mul_zero_r, PriceFacts.sqrt_zero. reflexivity.
  - rewrite (UniswapFacts.uni_set_price_eq
               (uni_pool t0 t1 a b acct gao gai) Hd).
    cbn [UniswapV2.reserve0 UniswapV2.reserve1 UniswapV2.token0
         UniswapV2.token1 UniswapV2.getAmountsOut UniswapV2.getAmountsIn].
    rewrite P. cbn [bind]. rewrite UniswapFacts.uni_price_delta_eq, D.
    cbn [bind]. rewrite G1, G2.
    destruct (tol <? 100); [|reflexivity].
    rewrite UniswapFacts.uni_get_amounts_eq.
    rewrite PriceFacts.mul_zero_r, PriceFacts.sqrt_zero. reflexivity.
Qed.

Lemma zero_price_witness :
  Mooniswap.set_price
    (moon_pool 1%N 2%N (1000 * 10 ^ 18) (900 * 10 ^ 18) (fun _ _ x => x))
    0 1%N 2%N 5
    = (if 5 <? 100 then Raise ZeroDivisionError else Return None) /\
  UniswapV2.set_price
    (uni_pool 1%N 2%N (1000 * 10 ^ 18) (900 * 10 ^ 18) 7%N
       (fun x _ => [x; x]) (fun x _ => [x; x]))
    0 1%N 2%N 5
    = (if 5 <? 100 then Raise ZeroDivisionError else Return None).
Proof.
  apply (zero_price 1%N 2%N (1000 * 10 ^ 18) (900 * 10 ^ 18) 5).
  - discriminate.
  - reflexivity.
  - split; [reflexivity|]. apply Z.leb_le. vm_compute. reflexivity.
  - discriminate.
Defined.

(** X7.  A negative market price makes the product [k * market_price]
    negative, and the derivation of the amounts then raises [ValueError]
    (the domain error of [math.sqrt]) in both market makers. *)
Theorem negative_price_raises (t0 t1 : Address) (a b mp : Z) :
  t0 <> t1 ->
  - 2 ^ 1000 <= Wad.mul (Wad.mul a b) mp < 0 ->
  Mooniswap._get_amounts mp t0 t1 (dict2 t0 a t1 b) = Raise ValueError /\
  UniswapV2._get_amounts mp a b = Raise ValueError.
Proof.
  intros Hd Hw. pose proof (PriceFacts.sqrt_neg _ Hw) as S.
  split.
  - rewrite (MooniswapFacts.moon_get_amounts_eq t0 t1 Hd a b mp).
    rewrite S. reflexivity.
  - rewrite UniswapFacts.uni_get_amounts_eq. rewrite S. reflexivity.
Qed.

Lemma negative_price_raises_witness :
  Mooniswap._get_amounts (- 10 ^ 18) 1%N 2%N
    (dict2 1%N (1000 * 10 ^ 18) 2%N (1000 * 10 ^ 18)) = Raise ValueError /\
  UniswapV2._get_amounts (- 10 ^ 18) (1000 * 10 ^ 18) (1000 * 10 ^ 18)
    = Raise ValueError.
Proof.
  apply (negative_price_raises 1%N 2%N).
  - discriminate.
  - split; [apply Z.leb_le|apply Z.ltb_lt]; vm_compute; reflexivity.
Defined.

(** X8.  The order in which the pool lists its two tokens is immaterial:
    both market makers answer a pool and the same pool with tokens and
    reserves listed the other way round alike, whichever tokens they are
    asked about. *)
Theorem token_order_immaterial
    (t0 t1 f s : Address) (a b mp tol : Z)
    (gr : Address -> Address -> Z -> Z) (acct : Address)
    (gao gai : Z -> list Address -> list Z) :
  t0 <> t1 ->
  Mooniswap.set_price (moon_pool t0 t1 a b gr) mp f s tol
    = Mooniswap.set_price (moon_pool t1 t0 b a gr) mp f s tol /\
  UniswapV2.set_price (uni_pool t0 t1 a b acct gao gai) mp f s tol
    = UniswapV2.set_price (uni_pool t1 t0 b a acct gao gai) mp f s tol.
Proof.
  intros Hd. split.
  - unfold Mooniswap.set_price, Mooniswap.reserves_map, Mooniswap.get_return.
    cbn [Mooniswap.balance0 Mooniswap.balance1 Mooniswap.token0
         Mooniswap.token1 Mooniswap.getReturn].
    rewrite (ClientFacts.dict2_comm t0 t1 a b Hd). reflexivity.
  - unfold UniswapV2.set_price, UniswapV2.reserves_map,
      UniswapV2.swap_from_exact_amount, UniswapV2.swap_to_exact_amount.
    cbn [UniswapV2.reserve0 UniswapV2.reserve1 UniswapV2.token0
         UniswapV2.token1 UniswapV2.getAmountsOut UniswapV2.getAmountsIn
         UniswapV2.account_address].
    rewrite (ClientFacts.dict2_comm t0 t1 a b Hd). reflexivity.
Qed.

Lemma token_order_immaterial_witness :
  Mooniswap.set_price
    (moon_pool 1%N 2%N (1000 * 10 ^ 18) (900 * 10 ^ 18) (fun _ _ x => x))
    (10 ^ 18) 2%N 1%N 1
    = Mooniswap.set_price
        (moon_pool 2%N 1%N (900 * 10 ^ 18) (1000 * 10 ^ 18) (fun _ _ x => x))
        (10 ^ 18) 2%N 1%N 1 /\
  UniswapV2.set_price
    (uni_pool 1%N 2%N (1000 * 10 ^ 18) (900 * 10 ^ 18) 7%N
       (fun x _ => [x; x]) (fun x _ => [x; x]))
    (10 ^ 18) 2%N 1%N 1
    = UniswapV2.set_price
        (uni_pool 2%N 1%N (900 * 10 ^ 18) (1000 * 10 ^ 18) 7%N
           (fun x _ => [x; x]) (fun x _ => [x; x]))
        (10 ^ 18) 2%N 1%N 1.
Proof.
  apply (token_order_immaterial 1%N 2%N 2%N 1%N).
  discriminate.
Defined.


(** X10.  A swap from an exact amount always ends its parameters with the
    path as given, the router's account and a deadline 1000 seconds
    ahead.  The amount paid in is passed exactly once: as the ether of
    the call when the path starts at the native asset, and as the first
    parameter otherwise. *)
Theorem router_swap_pays_once
    (account : Address) (now amount_in min_amount_out : Z)
    (path : list Address) (k : Call) :
  UniswapRouter.swap_from_exact_amount account now amount_in min_amount_out
    path = Some k ->
  (hd_error path = Some zero_address /\
   extra_value k = Some amount_in /\
   parameters k = [PInt min_amount_out; PAddrs path; PAddr account;
                   PInt (now + 1000)]) \/
  (hd_error path <> Some zero_address /\
   extra_value k = None /\
   parameters k = [PInt amount_in; PInt min_amount_out; PAddrs path;
                   PAddr account; PInt (now + 1000)]).
Proof.
  unfold UniswapRouter.swap_from_exact_amount.
  destruct path as [|first [|second rest]]; try discriminate.
  destruct (N.eqb_spec first zero_address) as [->|Hf].
  - intros [= <-]. left. repeat split.
  - assert (hd_error (first :: second :: rest) <> Some zero_address)
      by (cbn; congruence).
    destruct (N.eqb _ zero_address); intros [= <-]; right; repeat split;
      assumption.
Qed.

Lemma router_swap_pays_once_witness :
  let k := UniswapRouter.__swap_exact_eth_for_tokens 7%N 1600000000 5 4
             [0%N; 3%N; 9%N] in
  (hd_error [0%N; 3%N; 9%N] = Some zero_address /\
   extra_value k = Some 5 /\
   parameters k = [PInt 4; PAddrs [0%N; 3%N; 9%N]; PAddr 7%N;
                   PInt (1600000000 + 1000)]) \/
  (hd_error [0%N; 3%N; 9%N] <> Some zero_address /\
   extra_value k = None /\
   parameters k = [PInt 5; PInt 4; PAddrs [0%N; 3%N; 9%N];
                   PAddr 7%N; PInt (1600000000 + 1000)]).
Proof.
  cbv zeta.
  apply (router_swap_pays_once 7%N 1600000000 5 4 [0%N; 3%N; 9%N]).
  reflexivity.
Defined.

(** X11.  The same for a swap to an exact amount: the most that may be
    paid in is the ether of the call when the path starts at the native
    asset, and the second parameter otherwise; the exact amount out is
    always the first parameter. *)
Theorem router_swap_to_pays_once
    (account : Address) (now max_amount_in amount_out : Z)
    (path : list Address) (k : Call) :
  UniswapRouter.swap_to_exact_amount account now max_amount_in amount_out
    path = Some k ->
  (hd_error path = Some zero_address /\
   extra_value k = Some max_amount_in /\
   parameters k = [PInt amount_out; PAddrs path; PAddr account;
                   PInt (now + 1000)]) \/
  (hd_error path <> Some zero_address /\
   extra_value k = None /\
   parameters k = [PInt amount_out; PInt max_amount_in; PAddrs path;
                   PAddr account; PInt (now + 1000)]).
Proof.
  unfold UniswapRouter.swap_to_exact_amount.
  destruct path as [|first [|second rest]]; try discriminate.
  destruct (N.eqb_spec first zero_address) as [->|Hf].
  - intros [= <-]. left. repeat split.
  - assert (hd_error (first :: second :: rest) <> Some zero_address)
      by (cbn; congruence).
    destruct (N.eqb _ zero_address); intros [= <-]; right; repeat split;
      assumption.
Qed.

Lemma router_swap_to_pays_once_witness :
  let k := UniswapRouter.__swap_tokens_for_exact_eth 7%N 1600000000 4 5
             [3%N; 9%N; 0%N] in
  (hd_error [3%N; 9%N; 0%N] = Some zero_address /\
   extra_value k = Some 5 /\
   parameters k = [PInt 4; PAddrs [3%N; 9%N; 0%N]; PAddr 7%N;
                   PInt (1600000000 + 1000)]) \/
  (hd_error [3%N; 9%N; 0%N] <> Some zero_address /\
   extra_value k = None /\
   parameters k = [PInt 4; PInt 5; PAddrs [3%N; 9%N; 0%N];
                   PAddr 7%N; PInt (1600000000 + 1000)]).
Proof.
  cbv zeta.
  apply (router_swap_to_pays_once 7%N 1600000000 5 4 [3%N; 9%N; 0%N]).
  reflexivity.
Defined.


(** X13.  Adding liquidity to a pair with the native asset does not depend
    on which of the two tokens is named first: either way the call is
    [addLiquidityETH] for the other token, with both minimum amounts half
    the amounts (truncated) and the native amount sent as ether. *)
Theorem add_liquidity_native_order
    (account : Address) (now : Z) (token : Address) (eth_amount amount : Z) :
  token <> zero_address ->
  UniswapRouter.add_liquidity account now zero_address token eth_amount amount
    = UniswapRouter.add_liquidity account now token zero_address amount
        eth_amount /\
  UniswapRouter.add_liquidity account now zero_address token eth_amount amount
    = {| function_name := "addLiquidityETH"%string;
         parameters := [PAddr token; PInt amount; PInt (Z.quot amount 2);
                        PInt (Z.quot eth_amount 2); PAddr account;
                        PInt (now + 1000)];
         extra_value := Some eth_amount |}.
Proof.
  intros Ht. unfold UniswapRouter.add_liquidity. cbv zeta.
  rewrite (ClientFacts.mul_half amount), (ClientFacts.mul_half eth_amount).
  destruct (N.eqb_spec token zero_address); [contradiction|].
  split; reflexivity.
Qed.

Lemma add_liquidity_native_order_witness :
  UniswapRouter.add_liquidity 7%N 1600000000 zero_address 3%N 5 11
    = UniswapRouter.add_liquidity 7%N 1600000000 3%N zero_address 11 5 /\
  UniswapRouter.add_liquidity 7%N 1600000000 zero_address 3%N 5 11
    = {| function_name := "addLiquidityETH"%string;
         parameters := [PAddr 3%N; PInt 11; PInt (Z.quot 11 2);
                        PInt (Z.quot 5 2); PAddr 7%N;
                        PInt (1600000000 + 1000)];
         extra_value := Some 5 |}.
Proof.
  apply (add_liquidity_native_order 7%N 1600000000 3%N 5 11).
  discriminate.
Defined.

(** X14.  Removing liquidity never sends ether, and asks for at least half
    the liquidity amount (truncated) of either token; for a pair with the
    native asset the call does not depend on which token is named
    first. *)
Theorem remove_liquidity_halves
    (account : Address) (now : Z) (first_token second_token : Address)
    (amount : Z) :
  let k := UniswapRouter.remove_liquidity account now first_token second_token
             amount in
  extra_value k = None /\
  (exists tokens,
     parameters k = tokens ++ [PWadObject amount; PInt (Z.quot amount 2);
                               PInt (Z.quot amount 2);
                               PAddressObject account; PInt (now + 1000)]) /\
  (first_token = zero_address \/ second_token = zero_address ->
   k = UniswapRouter.remove_liquidity account now second_token first_token
         amount).
Proof.
  cbv zeta. unfold UniswapRouter.remove_liquidity. cbv zeta.
  rewrite (ClientFacts.mul_half amount).
  destruct (N.eqb_spec first_token zero_address) as [->|Hf];
    destruct (N.eqb_spec second_token zero_address) as [->|Hs];
    cbn [extra_value parameters].
  - split; [reflexivity|]. split; [|reflexivity].
    exists [PAddressObject zero_address]. reflexivity.
  - split; [reflexivity|]. split; [|reflexivity].
    exists [PAddressObject second_token]. reflexivity.
  - split; [reflexivity|]. split; [|reflexivity].
    exists [PAddressObject first_token]. reflexivity.
  - split; [reflexivity|]. split; [|intros [|]; contradiction].
    exists [PAddressObject first_token; PAddressObject second_token].
    reflexivity.
Qed.

(** X15.  Whichever way the Uniswap market maker trades, the exact amount
    of its swap is an amount of the first token, the distance
    [|a - new_a|] of its reserve from the target: paid in when the first
    token is sold, and taken out when the second token is sold. *)
Theorem uni_exact_is_first_token_gap
    (t0 t1 : Address) (a b mp : Z) (acct : Address)
    (gao gai : Z -> list Address -> list Z) :
  t0 <> t1 -> 0 < a < 2 ^ 256 -> 0 < b < 2 ^ 256 -> 0 < mp < 2 ^ 256 ->
  exists new_a,
    Wad.sqrt (Wad.mul (Wad.mul a b) mp) = Return new_a /\
    forall tol t,
      UniswapV2.set_price (uni_pool t0 t1 a b acct gao gai) mp t0 t1 tol
        = Return (Some t) ->
      UniswapV2.exact t = Z.abs (a - new_a) /\
      (UniswapV2.path t = [t0; t1] /\
       UniswapV2.method t <> UniswapV2.swapTokensForExactTokens /\
       UniswapV2.method t <> UniswapV2.swapTokensForExactETH /\
       UniswapV2.method t <> UniswapV2.swapETHForExactTokens
       \/
       UniswapV2.path t = [t1; t0] /\
       UniswapV2.method t <> UniswapV2.swapExactTokensForTokens /\
       UniswapV2.method t <> UniswapV2.swapExactETHForTokens /\
       UniswapV2.method t <> UniswapV2.swapExactTokensForETH).
Proof.
  intros Hd Ha Hb Hmp.
  destruct (WadFacts.targets_total a b mp Ha Hb Hmp)
    as (n1 & n2 & E1 & E2 & E3).
  exists n1. split; [exact E1|]. intros tol t.
  rewrite (UniswapFacts.uni_set_price_eq
             (uni_pool t0 t1 a b acct gao gai) Hd).
  cbn [UniswapV2.reserve0 UniswapV2.reserve1 UniswapV2.token0
       UniswapV2.token1 UniswapV2.getAmountsOut UniswapV2.getAmountsIn].
  rewrite UniswapFacts.uni_get_amounts_eq.
  rewrite E1. cbn [bind]. rewrite E2. cbn [bind]. rewrite E3. cbn [bind].
  cbv zeta. cbn [UniswapV2.exact_value]. unfold Wad.abs, Wad.sub.
  repeat returned; try discriminate; intros [= <-];
    unfold UniswapV2.swap_from_exact_amount, UniswapV2.swap_to_exact_amount;
    cbn [UniswapV2.path UniswapV2.exact UniswapV2.method];
    (split; [reflexivity|]).
  - left. split; [reflexivity|].
    destruct (N.eqb t0 zero_address); [|destruct (N.eqb t1 zero_address)];
      repeat split; discriminate.
  - right. split; [reflexivity|].
    destruct (N.eqb t1 zero_address); [|destruct (N.eqb t0 zero_address)];
      repeat split; discriminate.
Qed.

Lemma uni_exact_is_first_token_gap_witness :
  exists new_a,
    Wad.sqrt (Wad.mul (Wad.mul (1000 * 10 ^ 18) (1000 * 10 ^ 18)) (9 * 10 ^ 17))
      = Return new_a /\
    forall tol t,
      UniswapV2.set_price
        (uni_pool 1%N 2%N (1000 * 10 ^ 18) (1000 * 10 ^ 18) 7%N
           (fun x _ => [x; x]) (fun x _ => [x; x]))
        (9 * 10 ^ 17) 1%N 2%N tol
        = Return (Some t) ->
      UniswapV2.exact t = Z.abs (1000 * 10 ^ 18 - new_a) /\
      (UniswapV2.path t = [1%N; 2%N] /\
       UniswapV2.method t <> UniswapV2.swapTokensForExactTokens /\
       UniswapV2.method t <> UniswapV2.swapTokensForExactETH /\
       UniswapV2.method t <> UniswapV2.swapETHForExactTokens
       \/
       UniswapV2.path t = [2%N; 1%N] /\
       UniswapV2.method t <> UniswapV2.swapExactTokensForTokens /\
       UniswapV2.method t <> UniswapV2.swapExactETHForTokens /\
       UniswapV2.method t <> UniswapV2.swapExactTokensForETH).
Proof.
  apply (uni_exact_is_first_token_gap 1%N 2%N (1000 * 10 ^ 18)
           (1000 * 10 ^ 18) (9 * 10 ^ 17) 7%N).
  - discriminate.
  - split; [reflexivity|]. apply Z.ltb_lt. vm_compute. reflexivity.
  - split; [reflexivity|]. apply Z.ltb_lt. vm_compute. reflexivity.
  - split; [reflexivity|]. apply Z.ltb_lt. vm_compute. reflexivity.
Defined.
